(** * buildbucket.py: a shallow embedding and its verified properties

    The program parses a subcommand ([get], [put], [retry]), assembles a
    method, a URL and an optional JSON body, performs one HTTP request through
    an authorised transport, decorates the answer (optional response file,
    optional [Build: <url>] line) and returns [response.status != 200].

    Layout of the development:
    - [Py]       : the Python values the script manipulates and the semantics
                   of the few built-ins it calls on them;
    - [Eff]      : a state-and-exception monad for the process;
    - [Script]   : the embedding of [main] and of the [__main__] stanza, over
                   an abstract Python runtime ([json.loads], [json.dumps], ...);
    - [Json]     : a concrete JSON encoder and decoder for the integer/ASCII
                   fragment, giving an executable instance of the runtime;
    - the vocabulary of the statements, then the theorems: the requests of
      each command, malformed and missing inputs, the exchange and the
      decoration, verbose mode, what a run depends on and what it leaves
      alone, and the round trip of the inputs of [put] through the two
      serialisations.

    What the model takes for granted:
    - [argparse] has run: [Args] is the namespace it returns (a usage error
      ends the process before any line of [main]'s body);
    - the authenticator hands out a transport, and the transport answers
      every request ([force_exception_to_status_code] turns transport faults
      into responses);
    - writing to the standard streams succeeds;
    - text is a sequence of bytes; the interpreter's traceback for an
      uncaught exception is not recorded in [stderr]. *)

From Stdlib Require Import List String Ascii ZArith Bool Lia Permutation.
From Stdlib Require Import DecimalString DecimalPos.
Import ListNotations.
Set Warnings "-register-all".
Local Open Scope string_scope.
Local Open Scope list_scope.
Local Open Scope Z_scope.

(** String concatenation, kept apart from list append. *)
Infix "+++" := String.append (right associativity, at level 60).

(* ------------------------------------------------------------------ *)
(** ** Python values *)

Module Py.

(** Hashable values that can end up as dictionary keys.  [json.load] only
    produces string keys; [dict.update] on a list of pairs can add the
    others. *)
Inductive pykey : Type :=
| KStr (s : string)
| KInt (z : Z)
| KBool (b : bool)
| KNone.

(** The values [json.load]/[json.loads] return (float literals are outside
    the modelled fragment).  A [PDict] lists its items in insertion order. *)
Inductive pyval : Type :=
| PNone
| PBool (b : bool)
| PInt (z : Z)
| PStr (s : string)
| PList (l : list pyval)
| PDict (d : list (pykey * pyval)).

Inductive exn : Type :=
| IOError
| ValueError
| TypeError
| KeyError
| EncodeError.   (* whatever [json.dumps] raises; never caught by the script *)

Inductive result (A : Type) : Type :=
| Ok (a : A)
| Raise (e : exn).
Arguments Ok {A} a.
Arguments Raise {A} e.

(** Python's [==] (and hash agreement) on keys: [True == 1], [False == 0]. *)
Definition key_num (k : pykey) : option Z :=
  match k with
  | KInt z => Some z
  | KBool b => Some (if b then 1 else 0)
  | _ => None
  end.

Definition key_eqb (a b : pykey) : bool :=
  match a, b with
  | KStr s, KStr t => String.eqb s t
  | KNone, KNone => true
  | _, _ =>
      match key_num a, key_num b with
      | Some x, Some y => Z.eqb x y
      | _, _ => false
      end
  end.

(** [d[k] = v]: an existing equal key keeps its place (and its key object),
    a new key is added. *)
Fixpoint dict_set (d : list (pykey * pyval)) (k : pykey) (v : pyval)
  : list (pykey * pyval) :=
  match d with
  | [] => [(k, v)]
  | (k', v') :: d' =>
      if key_eqb k' k then (k', v) :: d' else (k', v') :: dict_set d' k v
  end.

Fixpoint dict_get (d : list (pykey * pyval)) (k : pykey) : option pyval :=
  match d with
  | [] => None
  | (k', v') :: d' => if key_eqb k' k then Some v' else dict_get d' k
  end.

(** Truth value of an optional string argument ([if args.changes:]):
    [None] and the empty string are false. *)
Definition truthy (o : option string) : bool :=
  match o with
  | Some s => negb (String.eqb s EmptyString)
  | None => false
  end.

(** The one-character strings of a string, as iteration yields them. *)
Fixpoint chars (s : string) : list pyval :=
  match s with
  | EmptyString => []
  | String c r => PStr (String c EmptyString) :: chars r
  end.

Section Builtins.

(** Iteration order of a dictionary, as a function of the sequence of
    keys inserted (CPython 2 orders by hash). *)
Variable dict_order : list pykey -> list pykey.

Definition key_val (k : pykey) : pyval :=
  match k with
  | KStr s => PStr s
  | KInt z => PInt z
  | KBool b => PBool b
  | KNone => PNone
  end.

Definition dict_keys (d : list (pykey * pyval)) : list pyval :=
  map key_val (dict_order (map fst d)).

Definition dict_items (d : list (pykey * pyval)) : list (pykey * pyval) :=
  flat_map (fun k => match dict_get d k with
                     | Some v => [(k, v)]
                     | None => []
                     end)
           (dict_order (map fst d)).

(** [iter(v)] run to exhaustion: lists, strings and dictionaries are
    iterable, the scalars raise [TypeError]. *)
Definition py_iter (v : pyval) : result (list pyval) :=
  match v with
  | PList l => Ok l
  | PStr s => Ok (chars s)
  | PDict d => Ok (dict_keys d)
  | PNone | PBool _ | PInt _ => Raise TypeError
  end.

(** [l.extend(v)] *)
Definition list_extend (l : list pyval) (v : pyval) : result (list pyval) :=
  match py_iter v with
  | Ok xs => Ok (l ++ xs)
  | Raise e => Raise e
  end.

(** [hash(v)] succeeds on scalars and strings only. *)
Definition as_key (v : pyval) : result pykey :=
  match v with
  | PStr s => Ok (KStr s)
  | PInt z => Ok (KInt z)
  | PBool b => Ok (KBool b)
  | PNone => Ok KNone
  | PList _ | PDict _ => Raise TypeError
  end.

(** One element of the sequence given to [dict.update]: it must be
    iterable ([TypeError] otherwise), of length two ([ValueError]
    otherwise), with a hashable first component. *)
Definition update_item (d : list (pykey * pyval)) (e : pyval)
  : result (list (pykey * pyval)) :=
  match py_iter e with
  | Raise _ => Raise TypeError
  | Ok [k; v] =>
      match as_key k with
      | Ok k' => Ok (dict_set d k' v)
      | Raise x => Raise x
      end
  | Ok _ => Raise ValueError
  end.

Fixpoint update_seq (d : list (pykey * pyval)) (xs : list pyval)
  : result (list (pykey * pyval)) :=
  match xs with
  | [] => Ok d
  | e :: xs' =>
      match update_item d e with
      | Ok d' => update_seq d' xs'
      | Raise x => Raise x
      end
  end.

(** [d.update(v)]: a mapping is merged item by item; anything else is
    iterated as a sequence of key/value pairs. *)
Definition dict_update (d : list (pykey * pyval)) (v : pyval)
  : result (list (pykey * pyval)) :=
  match v with
  | PDict d' =>
      Ok (fold_left (fun acc kv => dict_set acc (fst kv) (snd kv))
                    (dict_items d') d)
  | _ =>
      match py_iter v with
      | Ok xs => update_seq d xs
      | Raise x => Raise x
      end
  end.

End Builtins.

(** [v[k]] for a string subscript [k]. *)
Definition getitem (v : pyval) (k : string) : result pyval :=
  match v with
  | PDict d =>
      match dict_get d (KStr k) with
      | Some x => Ok x
      | None => Raise KeyError
      end
  | _ => Raise TypeError
  end.

End Py.

(* ------------------------------------------------------------------ *)
(** ** The process: state and exceptions *)

Module Eff.
Import Py.

Record Request : Type := mkRequest {
  req_url : string;
  req_method : string;
  req_body : option string;           (* [None] is Python's [None] *)
  req_headers : list (string * string)
}.

Record Response : Type := mkResponse {
  status : Z;
  resp_str : string                   (* [str(response)], for the trace *)
}.

(** What the process can observe but not change. *)
Record Env : Type := mkEnv {
  stdin : string;
  can_write : string -> bool;         (* does [open(path, 'w')] succeed *)
  http : Request -> Response * string (* the authorised transport, with
                                         [force_exception_to_status_code] *)
}.

(** What the process changes. *)
Record Proc : Type := mkProc {
  files : string -> option string;    (* [None]: [open(path)] fails *)
  stdout : list string;               (* one entry per [print] *)
  stderr : list string;               (* one entry per [write] *)
  sent : list Request                 (* requests issued, oldest first *)
}.

Definition Eff (A : Type) : Type := Proc -> result A * Proc.

Definition ret {A} (a : A) : Eff A := fun p => (Ok a, p).

Definition bind {A B} (m : Eff A) (f : A -> Eff B) : Eff B :=
  fun p =>
    match m p with
    | (Ok a, p') => f a p'
    | (Raise e, p') => (Raise e, p')
    end.

Definition raise {A} (e : exn) : Eff A := fun p => (Raise e, p).

Definition lift {A} (r : result A) : Eff A := fun p => (r, p).

(** [try: m  except (caught): h e] where [h] may re-raise. *)
Definition try_except {A} (m : Eff A) (caught : exn -> bool)
           (h : exn -> Eff A) : Eff A :=
  fun p =>
    match m p with
    | (Ok a, p') => (Ok a, p')
    | (Raise e, p') => if caught e then h e p' else (Raise e, p')
    end.

(** [try: x = m  except (caught): h  else: k x]: the [else] suite runs
    outside the protection of the handler. *)
Definition try_except_else {A B} (m : Eff A) (caught : exn -> bool)
           (h : Eff B) (k : A -> Eff B) : Eff B :=
  fun p =>
    match m p with
    | (Ok a, p') => k a p'
    | (Raise e, p') => if caught e then h p' else (Raise e, p')
    end.

Definition print (line : string) : Eff unit :=
  fun p => (Ok tt, mkProc (files p) (stdout p ++ [line]) (stderr p) (sent p)).

Definition stderr_write (s : string) : Eff unit :=
  fun p => (Ok tt, mkProc (files p) (stdout p) (stderr p ++ [s]) (sent p)).

(** [with open(path) as fp: fp.read()] *)
Definition read_file (path : string) : Eff string :=
  fun p =>
    match files p path with
    | Some c => (Ok c, p)
    | None => (Raise IOError, p)
    end.

(** [with open(path, 'w') as f: f.write(content)] *)
Definition write_file (env : Env) (path content : string) : Eff unit :=
  fun p =>
    if can_write env path then
      (Ok tt,
       mkProc (fun q => if String.eqb q path then Some content else files p q)
              (stdout p) (stderr p) (sent p))
    else (Raise IOError, p).

(** [http.request(url, method, body=..., headers=...)] *)
Definition http_request (env : Env) (r : Request) : Eff (Response * string) :=
  fun p =>
    (Ok (http env r), mkProc (files p) (stdout p) (stderr p) (sent p ++ [r])).

Module Notations.
Notation "x <- m ;; k" := (bind m (fun x => k))
  (at level 61, m at next level, right associativity).
Notation "m ;;; k" := (bind m (fun _ => k))
  (at level 61, right associativity).
End Notations.

End Eff.

(* ------------------------------------------------------------------ *)
(** ** The script *)

Module Script.
Import Py Eff Eff.Notations.

(** The library functions the script calls, as an interface.  [json_loads]
    answers [None] where Python raises [ValueError]; [json_dumps] answers
    [None] where Python raises. *)
Class Runtime : Type := {
  json_loads : string -> option pyval;
  json_dumps : pyval -> option string;
  dict_order : list pykey -> list pykey;
  py_repr : pyval -> string            (* [repr] of a list or a dict *)
}.

Definition BUILDBUCKET_URL : string := "https://cr-buildbucket.appspot.com".

(** [urlparse.urljoin(BUILDBUCKET_URL, '_ah/api/buildbucket/v1/builds')]:
    the base has an empty path, so the relative path is put under [/]. *)
Definition BUILDBUCKET_API_URL : string :=
  BUILDBUCKET_URL +++ "/" +++ "_ah/api/buildbucket/v1/builds".

(** The namespace [parser.parse_args()] returns, one case per subparser. *)
Inductive Command : Type :=
| Get (id : string)
| Put (bucket : string) (changes : option string)
      (builder_name : string) (properties : option string)
| Retry (id : string).

Record Args : Type := mkArgs {
  verbose : bool;
  command : Command;
  response_json : option string
}.

Definition nl : string := String (ascii_of_nat 10) EmptyString.

Definition str_of_Z (z : Z) : string := NilZero.string_of_int (Z.to_int z).

Section WithRuntime.
Context {R : Runtime}.

(** [json.load(fp)] on the text read from [fp] *)
Definition load (text : string) : result pyval :=
  match json_loads text with
  | Some v => Ok v
  | None => Raise ValueError
  end.

Definition dumps (v : pyval) : Eff string :=
  match json_dumps v with
  | Some s => ret s
  | None => raise EncodeError
  end.

(** [str(v)], as ['%s' % v] and [print] use it *)
Definition py_str (v : pyval) : string :=
  match v with
  | PNone => "None"
  | PBool true => "True"
  | PBool false => "False"
  | PInt z => str_of_Z z
  | PStr s => s
  | PList _ | PDict _ => py_repr v
  end.

Definition type_or_value (e : exn) : bool :=
  match e with TypeError | ValueError => true | _ => false end.

(** Lines 112-119. *)
Definition load_changes (arg : option string) : Eff (list pyval) :=
  match arg with
  | Some path =>
      if truthy arg then
        try_except
          (text <- read_file path ;;
           v <- lift (load text) ;;
           lift (list_extend dict_order [] v))
          type_or_value
          (fun e =>
             stderr_write (path +++ " contained invalid JSON list." +++ nl) ;;;
             raise e)
      else ret []
  | None => ret []
  end.

(** Lines 121-133. *)
Definition load_properties (env : Env) (arg : option string)
  : Eff (list (pykey * pyval)) :=
  match arg with
  | Some path =>
      if truthy arg then
        try_except
          (text <- (if String.eqb path "-" then ret (stdin env)
                    else read_file path) ;;
           v <- lift (load text) ;;
           lift (dict_update dict_order [] v))
          type_or_value
          (fun e =>
             stderr_write (path +++ " contained invalid JSON dict." +++ nl) ;;;
             raise e)
      else ret []
  | None => ret []
  end.

(** Lines 106-147: method, URL and body of the request. *)
Definition build_request (env : Env) (c : Command)
  : Eff (string * string * option string) :=
  match c with
  | Get id =>
      ret ("GET", BUILDBUCKET_API_URL +++ "/" +++ id, None)
  | Put bucket a_changes builder_name a_properties =>
      changes <- load_changes a_changes ;;
      properties <- load_properties env a_properties ;;
      parameters <- dumps (PDict [(KStr "builder_name", PStr builder_name);
                                  (KStr "changes", PList changes);
                                  (KStr "properties", PDict properties)]) ;;
      body <- dumps (PDict [(KStr "bucket", PStr bucket);
                            (KStr "parameters_json", PStr parameters)]) ;;
      ret ("PUT", BUILDBUCKET_API_URL, Some body)
  | Retry id =>
      ret ("PUT", BUILDBUCKET_API_URL +++ "/" +++ id +++ "/retry", None)
  end.

Definition str_of_body (b : option string) : string :=
  match b with Some s => s | None => "None" end.

Definition decoration_fault (e : exn) : bool :=
  match e with ValueError | TypeError | KeyError => true | _ => false end.

Definition when (b : bool) (m : Eff unit) : Eff unit :=
  if b then m else ret tt.

(** [content_json['build']['url']] *)
Definition build_url_of (content_json : pyval) : result pyval :=
  match getitem content_json "build" with
  | Ok build => getitem build "url"
  | Raise e => Raise e
  end.

(** Lines 172-181. *)
Definition decorate (env : Env) (a : Args) (content : string) : Eff unit :=
  try_except_else
    (content_json <- lift (load content) ;;
     match response_json a with
     | Some path => when (truthy (response_json a))
                         (write_file env path content)
     | None => ret tt
     end ;;;
     lift (build_url_of content_json))
    decoration_fault
    (ret tt)
    (fun build_url => print ("Build: " +++ py_str build_url)).

Definition main (env : Env) (a : Args) : Eff bool :=
  req <- build_request env (command a) ;;
  let '(method, url, body) := req in
  when (verbose a)
       (print ("Request URL: " +++ url) ;;;
        print ("Request method: " +++ method) ;;;
        print ("Request body: " +++ str_of_body body)) ;;;
  rc <- http_request env
          (mkRequest url method body
                     [("Content-Type", "application/json")]) ;;
  let '(response, content) := rc in
  when (verbose a)
       (print ("Response: " +++ resp_str response) ;;;
        print ("Content: " +++ content)) ;;;
  decorate env a content ;;;
  ret (negb (status response =? 200)).

(** How the process ends. *)
Inductive Outcome : Type :=
| Exited (code : Z)          (* [sys.exit] *)
| Uncaught (e : exn).        (* traceback *)

(** [sys.exit(main(sys.argv))]: [sys.exit(True)] is status 1,
    [sys.exit(False)] status 0. *)
Definition script (env : Env) (a : Args) (p : Proc) : Outcome * Proc :=
  match main env a p with
  | (Ok b, p') => (Exited (if b then 1 else 0), p')
  | (Raise e, p') => (Uncaught e, p')
  end.

(** The status the operating system sees; an uncaught exception ends the
    interpreter with status 1. *)
Definition exit_code (o : Outcome) : Z :=
  match o with
  | Exited c => c
  | Uncaught _ => 1
  end.

(** A fresh process over a given file system. *)
Definition boot (fs : string -> option string) : Proc :=
  mkProc fs [] [] [].

Definition run (env : Env) (a : Args) (fs : string -> option string)
  : Outcome * Proc :=
  script env a (boot fs).

End WithRuntime.

End Script.

(* ------------------------------------------------------------------ *)
(** ** A concrete JSON library for the integer/ASCII fragment

    [json.dumps] with its default separators and [ensure_ascii], and
    [json.loads] in strict mode.  The fragment: numbers are integers, strings
    are ASCII, dictionary keys are strings.  Outside it the encoder and the
    decoder answer [None]. *)

Module Json.
Import Py.
Local Open Scope char_scope.

Definition dq : ascii := "034".        (* double quote *)
Definition bs : ascii := "092".        (* backslash *)

Definition is_ascii (c : ascii) : bool := (N_of_ascii c <? 128)%N.

Fixpoint ascii_str (s : string) : bool :=
  match s with
  | EmptyString => true
  | String c r => is_ascii c && ascii_str r
  end.

(** *** Encoder *)

Definition hex_digit (n : N) : ascii :=
  if (n <? 10)%N then ascii_of_N (48 + n) else ascii_of_N (87 + n).

Definition printable (c : ascii) : bool :=
  ((32 <=? N_of_ascii c) && (N_of_ascii c <=? 126))%N.

(** [ESCAPE_ASCII]: the quote, the backslash and everything outside
    [' '..'~'] is escaped, the control characters without a short form as
    [\u00xx] in lower-case hexadecimal. *)
Definition esc_char (c : ascii) : string :=
  if (c =? dq) then String bs (String dq EmptyString)
  else if (c =? bs) then String bs (String bs EmptyString)
  else if (c =? "010") then String bs "n"
  else if (c =? "013") then String bs "r"
  else if (c =? "009") then String bs "t"
  else if (c =? "008") then String bs "b"
  else if (c =? "012") then String bs "f"
  else if printable c then String c EmptyString
  else String bs (String "u" (String "0" (String "0"
         (String (hex_digit (N_of_ascii c / 16))
                 (String (hex_digit (N_of_ascii c mod 16)) EmptyString))))).

Fixpoint esc_body (s : string) : string :=
  match s with
  | EmptyString => EmptyString
  | String c r => esc_char c +++ esc_body r
  end.

Definition enc_str (s : string) : string :=
  String dq (esc_body s +++ String dq EmptyString).

(** A key as the text of a member name.  [dumps] below only accepts string
    keys; the other cases follow the library's Python encoder. *)
Definition enc_key (k : pykey) : string :=
  match k with
  | KStr s => enc_str s
  | KInt z => enc_str (Script.str_of_Z z)
  | KBool true => enc_str "true"
  | KBool false => enc_str "false"
  | KNone => enc_str "null"
  end.

Fixpoint assoc (k : pykey) (es : list (pykey * string)) : option string :=
  match es with
  | [] => None
  | (k', e) :: es' => if key_eqb k' k then Some e else assoc k es'
  end.

Section Encoder.
Variable ord : list pykey -> list pykey.

(** The members of an object, in iteration order, from the encoded
    values in insertion order. *)
Definition members (es : list (pykey * string)) : list string :=
  flat_map (fun k => match assoc k es with
                     | Some e => [enc_key k +++ ": " +++ e]
                     | None => []
                     end)
           (ord (map fst es)).

Fixpoint enc (v : pyval) : string :=
  match v with
  | PNone => "null"
  | PBool true => "true"
  | PBool false => "false"
  | PInt z => Script.str_of_Z z
  | PStr s => enc_str s
  | PList l => "[" +++ String.concat ", " (map enc l) +++ "]"
  | PDict d =>
      "{" +++ String.concat ", "
                (members (map (fun kv => let '(k, x) := kv in (k, enc x)) d))
          +++ "}"
  end.
End Encoder.

Fixpoint in_fragment (v : pyval) : bool :=
  match v with
  | PStr s => ascii_str s
  | PList l => forallb in_fragment l
  | PDict d =>
      forallb (fun kv => match kv with
                         | (KStr k, x) => ascii_str k && in_fragment x
                         | _ => false
                         end) d
  | PNone | PBool _ | PInt _ => true
  end.

Definition dumps (ord : list pykey -> list pykey) (v : pyval)
  : option string :=
  if in_fragment v then Some (enc ord v) else None.

(** *** Decoder *)

Definition is_ws (c : ascii) : bool :=
  (c =? " ") || (c =? "009") || (c =? "010") || (c =? "013").

Fixpoint skip_ws (s : string) : string :=
  match s with
  | String c r => if is_ws c then skip_ws r else s
  | EmptyString => EmptyString
  end.

Fixpoint strip_prefix (p s : string) : option string :=
  match p with
  | EmptyString => Some s
  | String a p' =>
      match s with
      | String b s' => if (a =? b) then strip_prefix p' s' else None
      | EmptyString => None
      end
  end.

Definition unhex (c : ascii) : option N :=
  let n := N_of_ascii c in
  if ((48 <=? n) && (n <=? 57))%N then Some (n - 48)%N
  else if ((97 <=? n) && (n <=? 102))%N then Some (n - 87)%N
  else if ((65 <=? n) && (n <=? 70))%N then Some (n - 55)%N
  else None.

Definition unhex4 (a b c d : ascii) : option N :=
  match unhex a, unhex b, unhex c, unhex d with
  | Some x, Some y, Some z, Some w => Some (((x * 16 + y) * 16 + z) * 16 + w)%N
  | _, _, _, _ => None
  end.

(** The character a short escape stands for. *)
Definition unescape (e : ascii) : option ascii :=
  if (e =? dq) then Some dq
  else if (e =? bs) then Some bs
  else if (e =? "/") then Some "/"
  else if (e =? "b") then Some "008"
  else if (e =? "f") then Some "012"
  else if (e =? "n") then Some "010"
  else if (e =? "r") then Some "013"
  else if (e =? "t") then Some "009"
  else None.

Definition push (c : ascii) (r : option (string * string))
  : option (string * string) :=
  match r with
  | Some (x, rest) => Some (String c x, rest)
  | None => None
  end.

(** [scanstring], entered after the opening quote: the text up to the
    closing quote, unescaped, and what follows it.  Strict mode: a raw
    control character is an error. *)
Fixpoint scan_string (s : string) : option (string * string) :=
  match s with
  | EmptyString => None
  | String c r =>
      if (c =? dq) then Some (EmptyString, r)
      else if (c =? bs) then
        match r with
        | EmptyString => None
        | String e r1 =>
            if (e =? "u") then
              match r1 with
              | String h1 (String h2 (String h3 (String h4 r2))) =>
                  match unhex4 h1 h2 h3 h4 with
                  | Some n =>
                      if (n <? 128)%N then push (ascii_of_N n) (scan_string r2)
                      else None
                  | None => None
                  end
              | _ => None
              end
            else
              match unescape e with
              | Some ch => push ch (scan_string r1)
              | None => None
              end
        end
      else if (N_of_ascii c <? 32)%N then None
      else if is_ascii c then push c (scan_string r)
      else None
  end.

Definition digit (c : ascii) : option Z :=
  let n := N_of_ascii c in
  if ((48 <=? n) && (n <=? 57))%N then Some (Z.of_N n - 48)%Z else None.

Fixpoint scan_digits (acc : Z) (s : string) : Z * string :=
  match s with
  | EmptyString => (acc, s)
  | String c r =>
      match digit c with
      | Some d => scan_digits (10 * acc + d)%Z r
      | None => (acc, s)
      end
  end.

(** Does a fraction or an exponent start here?  (A float, or an error.) *)
Definition float_tail (s : string) : bool :=
  match s with
  | String c _ => (c =? ".") || (c =? "e") || (c =? "E")
  | EmptyString => false
  end.

(** [NUMBER_RE], integer part: [0] or a non-zero digit and more digits. *)
Definition scan_nat (s : string) : option (Z * string) :=
  match s with
  | EmptyString => None
  | String c r =>
      match digit c with
      | Some 0%Z => if float_tail r then None else Some (0%Z, r)
      | Some d =>
          let '(n, r') := scan_digits d r in
          if float_tail r' then None else Some (n, r')
      | None => None
      end
  end.

Definition scan_number (s : string) : option (pyval * string) :=
  match s with
  | String "-" r =>
      match scan_nat r with
      | Some (n, r') => Some (PInt (- n), r')
      | None => None
      end
  | _ =>
      match scan_nat s with
      | Some (n, r') => Some (PInt n, r')
      | None => None
      end
  end.

Definition scan_atom (s : string) : option (pyval * string) :=
  match strip_prefix "null" s with
  | Some r => Some (PNone, r)
  | None =>
      match strip_prefix "true" s with
      | Some r => Some (PBool true, r)
      | None =>
          match strip_prefix "false" s with
          | Some r => Some (PBool false, r)
          | None => scan_number s
          end
      end
  end.

(** [scan_once], [JSONArray] and [JSONObject].  [fuel] bounds the number of
    nested calls; [loads] gives enough of it. *)
Fixpoint parse_value (fuel : nat) (s : string) {struct fuel}
  : option (pyval * string) :=
  match fuel with
  | O => None
  | S f =>
      match s with
      | EmptyString => None
      | String c r =>
          if (c =? dq) then
            match scan_string r with
            | Some (x, r') => Some (PStr x, r')
            | None => None
            end
          else if (c =? "{") then
            match skip_ws r with
            | EmptyString => None
            | String c' r' =>
                if (c' =? "}") then Some (PDict [], r')
                else parse_members f (String c' r') []
            end
          else if (c =? "[") then
            match skip_ws r with
            | EmptyString => None
            | String c' r' =>
                if (c' =? "]") then Some (PList [], r')
                else parse_elems f (String c' r') []
            end
          else scan_atom s
      end
  end

with parse_elems (fuel : nat) (s : string) (acc : list pyval) {struct fuel}
  : option (pyval * string) :=
  match fuel with
  | O => None
  | S f =>
      match parse_value f s with
      | None => None
      | Some (v, r) =>
          match skip_ws r with
          | EmptyString => None
          | String c r' =>
              if (c =? ",") then parse_elems f (skip_ws r') (acc ++ [v])
              else if (c =? "]") then Some (PList (acc ++ [v]), r')
              else None
          end
      end
  end

with parse_members (fuel : nat) (s : string) (acc : list (pykey * pyval))
       {struct fuel} : option (pyval * string) :=
  match fuel with
  | O => None
  | S f =>
      match s with
      | EmptyString => None
      | String c r =>
          if (c =? dq) then
            match scan_string r with
            | None => None
            | Some (k, r1) =>
                match skip_ws r1 with
                | EmptyString => None
                | String c1 r2 =>
                    if (c1 =? ":") then
                      match parse_value f (skip_ws r2) with
                      | None => None
                      | Some (v, r3) =>
                          match skip_ws r3 with
                          | EmptyString => None
                          | String c3 r4 =>
                              if (c3 =? ",") then
                                parse_members f (skip_ws r4)
                                              (dict_set acc (KStr k) v)
                              else if (c3 =? "}") then
                                Some (PDict (dict_set acc (KStr k) v), r4)
                              else None
                          end
                      end
                    else None
                end
            end
          else None
      end
  end.

(** [json.loads]: leading blanks, one value, trailing blanks, the end. *)
Definition loads (s : string) : option pyval :=
  match parse_value (2 * String.length s + 2) (skip_ws s) with
  | Some (v, r) =>
      match skip_ws r with
      | EmptyString => Some v
      | String _ _ => None
      end
  | None => None
  end.

(** [repr] of a list or a dictionary is not modelled. *)
Definition repr_opaque (v : pyval) : string := "<repr>".

(** The runtime made of the two, for a given dictionary order. *)
Definition runtime (ord : list pykey -> list pykey) : Script.Runtime :=
  {| Script.json_loads := loads;
     Script.json_dumps := dumps ord;
     Script.dict_order := ord;
     Script.py_repr := repr_opaque |}.

(** A test helper: a JSON text written with apostrophes for the double
    quotes. *)
Fixpoint qq (s : string) : string :=
  match s with
  | EmptyString => EmptyString
  | String c r => String (if (c =? "'") then dq else c) (qq r)
  end.

End Json.


(* ------------------------------------------------------------------ *)
(** * Vocabulary of the statements *)

Import Py Eff Script.

Definition content_type : list (string * string) :=
  [("Content-Type", "application/json")].

(** ** What a run is observed through *)

Section Observing.
Context {R : Runtime}.

(** The process after a successful write of the response file. *)
Definition written (path content : string) (p : Proc) : Proc :=
  mkProc (fun q => if String.eqb q path then Some content else files p q)
         (stdout p) (stderr p) (sent p).

Definition printed (line : string) (p : Proc) : Proc :=
  mkProc (files p) (stdout p ++ [line]) (stderr p) (sent p).

(** The two ways the decoration ends once the body is parsed. *)
Definition finish (v : pyval) (p : Proc) : result unit * Proc :=
  match build_url_of v with
  | Ok u => (Ok tt, printed ("Build: " +++ py_str u) p)
  | Raise _ => (Ok tt, p)
  end.

(** The trace of verbose mode. *)
Definition trace_lines (env : Env) (r : Request) : list string :=
  [ "Request URL: " +++ req_url r;
    "Request method: " +++ req_method r;
    "Request body: " +++ str_of_body (req_body r);
    "Response: " +++ resp_str (fst (http env r));
    "Content: " +++ snd (http env r) ].

(** The process once the answer has arrived. *)
Definition exchanged (env : Env) (verb : bool) (r : Request) (p : Proc)
  : Proc :=
  mkProc (files p)
         (stdout p ++ (if verb then trace_lines env r else []))
         (stderr p) (sent p ++ [r]).

Definition request_of (x : string * string * option string) : Request :=
  let '(method, url, body) := x in mkRequest url method body content_type.

(** Assembling the request only reads files and, on a malformed input,
    writes to the error stream. *)
Definition same_but_stderr (p q : Proc) : Prop :=
  files q = files p /\ stdout q = stdout p /\ sent q = sent p.

(** What [extend] and [update] make of the text of an input. *)
Definition changes_of (text : string) : result (list pyval) :=
  match load text with
  | Ok v => list_extend dict_order [] v
  | Raise e => Raise e
  end.

Definition properties_of (text : string) : result (list (pykey * pyval)) :=
  match load text with
  | Ok v => dict_update dict_order [] v
  | Raise e => Raise e
  end.

Definition status_code (s : Z) : Z := if s =? 200 then 0 else 1.

End Observing.

(** ** One unfolding of the decoder, and the dictionaries of [put]

    The three mutually recursive functions of the decoder, with the
    recursive calls abstracted; the proofs about fuel go through them. *)

Section Unfoldings.
Import Json.

Definition parser : Type := string -> option (pyval * string).

Definition value_body (pe : string -> list pyval -> option (pyval * string))
           (pm : string -> list (pykey * pyval) -> option (pyval * string))
           (s : string) : option (pyval * string) :=
  match s with
  | EmptyString => None
  | String c r =>
      if (c =? dq)%char then
        match scan_string r with
        | Some (x, r') => Some (PStr x, r')
        | None => None
        end
      else if (c =? "{")%char then
        match skip_ws r with
        | EmptyString => None
        | String c' r' =>
            if (c' =? "}")%char then Some (PDict [], r')
            else pm (String c' r') []
        end
      else if (c =? "[")%char then
        match skip_ws r with
        | EmptyString => None
        | String c' r' =>
            if (c' =? "]")%char then Some (PList [], r')
            else pe (String c' r') []
        end
      else scan_atom s
  end.

Definition elems_body (pv : parser)
           (pe : string -> list pyval -> option (pyval * string))
           (s : string) (acc : list pyval) : option (pyval * string) :=
  match pv s with
  | None => None
  | Some (v, r) =>
      match skip_ws r with
      | EmptyString => None
      | String c r' =>
          if (c =? ",")%char then pe (skip_ws r') (acc ++ [v])
          else if (c =? "]")%char then Some (PList (acc ++ [v]), r')
          else None
      end
  end.

Definition members_body (pv : parser)
           (pm : string -> list (pykey * pyval) -> option (pyval * string))
           (s : string) (acc : list (pykey * pyval))
  : option (pyval * string) :=
  match s with
  | EmptyString => None
  | String c r =>
      if (c =? dq)%char then
        match scan_string r with
        | None => None
        | Some (k, r1) =>
            match skip_ws r1 with
            | EmptyString => None
            | String c1 r2 =>
                if (c1 =? ":")%char then
                  match pv (skip_ws r2) with
                  | None => None
                  | Some (v, r3) =>
                      match skip_ws r3 with
                      | EmptyString => None
                      | String c3 r4 =>
                          if (c3 =? ",")%char then
                            pm (skip_ws r4) (dict_set acc (KStr k) v)
                          else if (c3 =? "}")%char then
                            Some (PDict (dict_set acc (KStr k) v), r4)
                          else None
                      end
                  end
                else None
            end
        end
      else None
  end.

(** The dictionary serialised as [parameters_json], and the one
    serialised as the body. *)
Definition parameters (N : string) (changes : list pyval)
           (properties : list (pykey * pyval)) : pyval :=
  PDict [(KStr "builder_name", PStr N); (KStr "changes", PList changes);
         (KStr "properties", PDict properties)].

Definition put_body (B s : string) : pyval :=
  PDict [(KStr "bucket", PStr B); (KStr "parameters_json", PStr s)].

End Unfoldings.

(** ** Fixtures for concrete runs *)

Module Fixtures.
Import Json.

(** Dictionaries iterated in insertion order. *)
Definition insertion_order (ks : list pykey) : list pykey := ks.

Definition py : Runtime := runtime insertion_order.

(** A server that answers every request alike. *)
Definition answer (st : Z) (content : string)
  : Request -> Response * string :=
  fun _ => (mkResponse st "<response>", content).

Definition no_files : string -> option string := fun _ => None.

Definition file (path text : string) : string -> option string :=
  fun q => if String.eqb q path then Some text else None.

Definition anywhere : string -> bool := fun _ => true.
Definition nowhere : string -> bool := fun _ => false.

Definition request (method url : string) (body : option string) : Request :=
  mkRequest url method body content_type.

End Fixtures.

Definition get1 : Request :=
  Fixtures.request "GET" (BUILDBUCKET_API_URL +++ "/1") None.

(** ** The inputs a command consults *)

(** Standard input is read for [put --properties -] alone. *)
Definition reads_stdin (c : Command) : bool :=
  match c with
  | Put _ _ _ (Some p) => String.eqb p "-"
  | _ => false
  end.

(** Files are opened for reading for a non-empty [--changes] path and for a
    non-empty [--properties] path other than [-]. *)
Definition reads_files (c : Command) : bool :=
  match c with
  | Put _ chg _ pr =>
      truthy chg
      || (truthy pr && negb (match pr with
                             | Some p => String.eqb p "-"
                             | None => false
                             end))
  | _ => false
  end.

(** The message written for a malformed input. *)
Definition invalid_list (path : string) : string :=
  path +++ " contained invalid JSON list." +++ nl.

Definition invalid_dict (path : string) : string :=
  path +++ " contained invalid JSON dict." +++ nl.

Definition complained (msg : string) (p : Proc) : Proc :=
  mkProc (files p) (stdout p) (stderr p ++ [msg]) (sent p).

(** The changes option raises nothing: it is absent or empty, or names a
    file that can be read and whose content [extend] accepts. *)
Definition changes_loadable {R : Runtime}
           (fs : string -> option string) (chg : option string) : Prop :=
  chg = None \/ chg = Some EmptyString
  \/ exists path text xs,
       chg = Some path /\ fs path = Some text /\ changes_of text = Ok xs.

(** The text the properties are decoded from: standard input for [-], the
    named file otherwise. *)
Definition properties_text (env : Env) (p : Proc) (path : string)
  : option string :=
  if String.eqb path "-" then Some (stdin env) else files p path.

Section Encoding.
Context {R : Runtime}.

(** Lines 135-144: the two serialisations of [put], the inner one first. *)
Definition encode_put (b n : string) (xs : list pyval)
           (ps : list (pykey * pyval)) (p : Proc)
  : result (string * string * option string) * Proc :=
  match json_dumps (parameters n xs ps) with
  | None => (Raise EncodeError, p)
  | Some s =>
      match json_dumps (put_body b s) with
      | None => (Raise EncodeError, p)
      | Some body => (Ok ("PUT", BUILDBUCKET_API_URL, Some body), p)
      end
  end.

(** Lines 121-144, once the changes are known. *)
Definition put_after_changes (env : Env) (b n : string) (pr : option string)
           (xs : list pyval) (p : Proc)
  : result (string * string * option string) * Proc :=
  match load_properties env pr p with
  | (Raise e, p2) => (Raise e, p2)
  | (Ok ps, p2) => encode_put b n xs ps p2
  end.

End Encoding.

(** Two processes that differ in their files at most. *)
Definition same_but_files (p q : Proc) : Prop :=
  stdout q = stdout p /\ stderr q = stderr p /\ sent q = sent p.

(** [None], a boolean or a number: what neither [extend] nor [update] can
    iterate over. *)
Definition scalar (v : pyval) : bool :=
  match v with
  | PNone | PBool _ | PInt _ => true
  | PStr _ | PList _ | PDict _ => false
  end.

(** ** JSON values up to the order of members *)

Section Canonical.
Import Json.
Variable ord : list pykey -> list pykey.

(** A value as the decoder reads it back from the encoder's text: every
    dictionary in its iteration order. *)
Fixpoint canon (v : pyval) : pyval :=
  match v with
  | PList l => PList (map canon l)
  | PDict d =>
      PDict (dict_items ord (map (fun kv => let '(k, x) := kv in (k, canon x)) d))
  | _ => v
  end.

End Canonical.

(** Keys pairwise different under Python's [==], earlier against later. *)
Fixpoint distinct (ks : list pykey) : bool :=
  match ks with
  | [] => true
  | k :: r => forallb (fun k2 => negb (key_eqb k k2)) r && distinct r
  end.

Fixpoint distinct_keys (v : pyval) : bool :=
  match v with
  | PList l => forallb distinct_keys l
  | PDict d =>
      distinct (map fst d) && forallb (fun kv => distinct_keys (snd kv)) d
  | PNone | PBool _ | PInt _ | PStr _ => true
  end.

(** A value of the fragment with proper dictionaries. *)
Definition wf (v : pyval) : bool := Json.in_fragment v && distinct_keys v.

(** The same JSON value: equal up to the order of the members of objects,
    at any depth. *)
Inductive jeq : pyval -> pyval -> Prop :=
| jeq_same v : jeq v v
| jeq_list l l' : Forall2 jeq l l' -> jeq (PList l) (PList l')
| jeq_dict d d' d'' :
    Permutation d d'' ->
    Forall2 (fun a b => fst a = fst b /\ jeq (snd a) (snd b)) d'' d' ->
    jeq (PDict d) (PDict d').

(** What follows a value in a text: nothing, or a separator or closing
    bracket. *)
Definition delim (rest : string) : bool :=
  match rest with
  | EmptyString => true
  | String c _ => ((c =? ",") || (c =? "]") || (c =? "}"))%char
  end.

(** The value of a decimal numeral read from the left, as [scan_digits]
    accumulates it. *)
Fixpoint uval (acc : Z) (d : Decimal.uint) : Z :=
  match d with
  | Decimal.Nil => acc
  | Decimal.D0 d => uval (10 * acc + 0) d
  | Decimal.D1 d => uval (10 * acc + 1) d
  | Decimal.D2 d => uval (10 * acc + 2) d
  | Decimal.D3 d => uval (10 * acc + 3) d
  | Decimal.D4 d => uval (10 * acc + 4) d
  | Decimal.D5 d => uval (10 * acc + 5) d
  | Decimal.D6 d => uval (10 * acc + 6) d
  | Decimal.D7 d => uval (10 * acc + 7) d
  | Decimal.D8 d => uval (10 * acc + 8) d
  | Decimal.D9 d => uval (10 * acc + 9) d
  end.

Section ReadsBack.
Import Json.
Variable ord : list pykey -> list pykey.

(** The decoder reads the encoder's text of [v] back, whatever follows. *)
Definition reads_back (v : pyval) : Prop :=
  forall rest, delim rest = true ->
    exists n, parse_value n (enc ord v +++ rest) = Some (canon ord v, rest).

(** The text of a member. *)
Definition render (kv : pykey * pyval) : string :=
  enc_key (fst kv) +++ ": " +++ enc ord (snd kv).

End ReadsBack.

(** A member whose key is an ASCII string. *)
Definition string_key (kv : pykey * pyval) : Prop :=
  exists s, fst kv = KStr s /\ Json.ascii_str s = true.

(** ** The inputs of [put], when they are what the options ask for *)

(** The changes option is absent or empty, or names a file that holds a
    JSON list. *)
Definition changes_given (fs : string -> option string)
           (chg : option string) (xs : list pyval) : Prop :=
  match chg with
  | Some path =>
      if truthy chg
      then exists text,
             fs path = Some text /\ Json.loads text = Some (PList xs)
      else xs = []
  | None => xs = []
  end.

(** The properties option is absent or empty, or names a source (a file,
    or standard input for [-]) that holds a JSON object. *)
Definition properties_given (env : Env) (fs : string -> option string)
           (pr : option string) (d : list (pykey * pyval)) : Prop :=
  match pr with
  | Some path =>
      if truthy pr
      then exists text,
             properties_text env (boot fs) path = Some text
             /\ Json.loads text = Some (PDict d)
      else d = []
  | None => d = []
  end.

(* ------------------------------------------------------------------ *)
(** * Properties of the script, for every runtime *)

(** Unfolding the monad. *)
Ltac unmonad :=
  unfold bind, ret, raise, lift, when, try_except, try_except_else,
    print, stderr_write, read_file, write_file, http_request in *.

(** Case analysis on an innermost scrutinee of the goal. *)
Ltac break_match :=
  match goal with
  | |- context [match ?x with _ => _ end] =>
      lazymatch x with
      | context [match _ with _ => _ end] => fail
      | _ => destruct x eqn:?
      end
  end.

Section Generic.
Context {R : Runtime}.


Lemma getitem_faults v k e :
  getitem v k = Raise e -> decoration_fault e = true.
Proof.
  unfold getitem. destruct v; try (intros [= <-]; reflexivity).
  destruct (dict_get d (KStr k)); intros [= <-]. reflexivity.
Qed.

Lemma build_url_faults v e :
  build_url_of v = Raise e -> decoration_fault e = true.
Proof.
  unfold build_url_of. destruct (getitem v "build") eqn:E.
  - apply getitem_faults.
  - intros [= <-]. exact (getitem_faults _ _ _ E).
Qed.

(** What the decoration does, case by case. *)
Lemma decorate_cases env a content p :
  decorate env a content p =
  match json_loads content with
  | None => (Ok tt, p)
  | Some v =>
      match response_json a with
      | Some path =>
          if truthy (Some path) then
            if can_write env path then finish v (written path content p)
            else (Raise IOError, p)
          else finish v p
      | None => finish v p
      end
  end.
Proof.
  unfold decorate, load, finish. unmonad.
  destruct (json_loads content) as [v|]; simpl; [|reflexivity].
  destruct (response_json a) as [path|]; simpl.
  - destruct (negb (String.eqb path EmptyString)); simpl.
    + destruct (can_write env path); simpl; [|reflexivity].
      destruct (build_url_of v) eqn:E; simpl; [reflexivity|].
      rewrite (build_url_faults _ _ E). reflexivity.
    + destruct (build_url_of v) eqn:E; simpl; [reflexivity|].
      rewrite (build_url_faults _ _ E). reflexivity.
  - destruct (build_url_of v) eqn:E; simpl; [reflexivity|].
    rewrite (build_url_faults _ _ E). reflexivity.
Qed.

Lemma truthy_nonempty path :
  path <> EmptyString -> truthy (Some path) = true.
Proof.
  intros N. simpl. destruct (String.eqb_spec path EmptyString);
    [contradiction|reflexivity].
Qed.

Lemma main_cases env a p :
  main env a p =
  match build_request env (command a) p with
  | (Raise e, p1) => (Raise e, p1)
  | (Ok x, p1) =>
      let r := request_of x in
      match decorate env a (snd (http env r))
                     (exchanged env (verbose a) r p1) with
      | (Ok _, p3) => (Ok (negb (status (fst (http env r)) =? 200)), p3)
      | (Raise e, p3) => (Raise e, p3)
      end
  end.
Proof.
  unfold main, bind at 1.
  destruct (build_request env (command a) p) as [[[[m u] b]|e] p1];
    [|reflexivity].
  unfold request_of, exchanged, trace_lines, content_type. unmonad. simpl.
  destruct (http env _) as [resp content] eqn:H. simpl.
  destruct (verbose a); simpl.
  - rewrite <- !app_assoc. simpl.
    destruct (decorate env a content _) as [[[]|e] p3]; reflexivity.
  - rewrite app_nil_r.
    destruct (decorate env a content _) as [[[]|e] p3]; reflexivity.
Qed.

Lemma proc_eta p : mkProc (files p) (stdout p) (stderr p) (sent p) = p.
Proof. destruct p; reflexivity. Qed.

Lemma load_changes_ok arg p x p1 :
  load_changes arg p = (Ok x, p1) -> p1 = p.
Proof.
  unfold load_changes, load, list_extend. unmonad.
  repeat (break_match; simpl); intros [= ]; subst; congruence.
Qed.

Lemma load_changes_frame arg p :
  same_but_stderr p (snd (load_changes arg p)).
Proof.
  unfold load_changes, load, list_extend, same_but_stderr. unmonad.
  repeat (break_match; simpl); repeat split; congruence.
Qed.

Lemma load_properties_ok env arg p x p1 :
  load_properties env arg p = (Ok x, p1) -> p1 = p.
Proof.
  unfold load_properties, load. unmonad.
  repeat (break_match; simpl); intros [= ]; subst; congruence.
Qed.

Lemma load_properties_frame env arg p :
  same_but_stderr p (snd (load_properties env arg p)).
Proof.
  unfold load_properties, load, same_but_stderr. unmonad.
  repeat (break_match; simpl); repeat split; congruence.
Qed.

Lemma dumps_pure v p : snd (dumps v p) = p.
Proof. unfold dumps. unmonad. destruct (json_dumps v); reflexivity. Qed.

Lemma build_request_ok env c p x p1 :
  build_request env c p = (Ok x, p1) -> p1 = p.
Proof.
  destruct c as [id|b ch n pr|id]; simpl;
    try (unmonad; intros [= ]; congruence).
  unfold bind.
  destruct (load_changes ch p) as [[cs|e] q1] eqn:E1; [|discriminate].
  apply load_changes_ok in E1. subst q1.
  destruct (load_properties env pr p) as [[ps|e] q2] eqn:E2; [|discriminate].
  apply load_properties_ok in E2. subst q2.
  unfold dumps. unmonad.
  repeat (break_match; simpl); intros [= ]; subst; congruence.
Qed.

Lemma build_request_frame env c p :
  same_but_stderr p (snd (build_request env c p)).
Proof.
  destruct c as [id|b ch n pr|id]; simpl;
    try (unmonad; repeat split; reflexivity).
  unfold bind.
  pose proof (load_changes_frame ch p) as F1.
  destruct (load_changes ch p) as [[cs|e] q1] eqn:E1; simpl in F1;
    [|exact F1].
  apply load_changes_ok in E1. subst q1.
  pose proof (load_properties_frame env pr p) as F2.
  destruct (load_properties env pr p) as [[ps|e] q2] eqn:E2; simpl in F2;
    [|exact F2].
  apply load_properties_ok in E2. subst q2.
  unfold dumps, same_but_stderr. unmonad.
  repeat (break_match; simpl); repeat split; congruence.
Qed.

Lemma finish_sent v p : sent (snd (finish v p)) = sent p.
Proof. unfold finish. destruct (build_url_of v); reflexivity. Qed.

Lemma finish_stderr v p : stderr (snd (finish v p)) = stderr p.
Proof. unfold finish. destruct (build_url_of v); reflexivity. Qed.

Lemma decorate_sent env a content p :
  sent (snd (decorate env a content p)) = sent p.
Proof.
  rewrite decorate_cases.
  repeat (break_match; simpl); rewrite ?finish_sent; reflexivity.
Qed.

Lemma decorate_stderr env a content p :
  stderr (snd (decorate env a content p)) = stderr p.
Proof.
  rewrite decorate_cases.
  repeat (break_match; simpl); rewrite ?finish_stderr; reflexivity.
Qed.

(** The run, split at the request. *)
Lemma run_cases env a fs :
  run env a fs =
  match build_request env (command a) (boot fs) with
  | (Raise e, p1) => (Uncaught e, p1)
  | (Ok x, _) =>
      let r := request_of x in
      match decorate env a (snd (http env r))
                     (exchanged env (verbose a) r (boot fs)) with
      | (Ok _, p3) =>
          (Exited (if status (fst (http env r)) =? 200 then 0 else 1), p3)
      | (Raise e, p3) => (Uncaught e, p3)
      end
  end.
Proof.
  unfold run, script. rewrite main_cases.
  destruct (build_request env (command a) (boot fs)) as [[x|e] p1] eqn:E;
    [|reflexivity].
  apply build_request_ok in E. subst p1. simpl.
  destruct (decorate env a _ _) as [[[]|e] p3]; [|reflexivity].
  destruct (status _ =? 200); reflexivity.
Qed.

(** The requests a run issues: one if the request could be assembled,
    none otherwise. *)
Lemma run_sent env a fs :
  sent (snd (run env a fs)) =
  match build_request env (command a) (boot fs) with
  | (Ok x, _) => [request_of x]
  | (Raise _, _) => []
  end.
Proof.
  rewrite run_cases.
  pose proof (build_request_frame env (command a) (boot fs)) as F.
  destruct (build_request env (command a) (boot fs)) as [[x|e] p1]; simpl.
  - pose proof (decorate_sent env a (snd (http env (request_of x)))
                  (exchanged env (verbose a) (request_of x) (boot fs))) as D.
    destruct (decorate env a _ _) as [[[]|e] p3]; exact D.
  - apply F.
Qed.

End Generic.

(** ** The requests of [get] and [retry] *)

Section Requests.
Context {R : Runtime}.

(** C7: [get --id X] issues exactly one request, [GET <base>/X], without
    a body. *)
Theorem get_issues_GET env (verb : bool) (id : string) rj fs :
  sent (snd (run env (mkArgs verb (Get id) rj) fs)) =
  [ mkRequest (BUILDBUCKET_API_URL +++ "/" +++ id) "GET" None content_type ].
Proof. rewrite run_sent. reflexivity. Qed.

(** C8: [retry --id X] issues exactly one request, [PUT <base>/X/retry],
    without a body; and every request any invocation issues carries the
    header [Content-Type: application/json]. *)
Theorem retry_issues_PUT env (verb : bool) (id : string) rj fs :
  sent (snd (run env (mkArgs verb (Retry id) rj) fs)) =
  [ mkRequest (BUILDBUCKET_API_URL +++ "/" +++ id +++ "/retry") "PUT" None
              content_type ]
  /\ forall a fs' r,
       In r (sent (snd (run env a fs'))) ->
       req_headers r = [("Content-Type", "application/json")].
Proof.
  split; [rewrite run_sent; reflexivity|].
  intros a fs' r. rewrite run_sent.
  destruct (build_request env (command a) (boot fs')) as [[[[m u] b]|e] p1];
    simpl; [|tauto].
  intros [<-|[]]. reflexivity.
Qed.

End Requests.

(** ** Malformed inputs of [put] *)

Section InputFaults.
Context {R : Runtime}.

Lemma update_seq_faults xs : forall d e,
  update_seq dict_order d xs = Raise e -> type_or_value e = true.
Proof.
  induction xs as [|x xs IH]; intros d e; simpl; [discriminate|].
  destruct (update_item dict_order d x) as [d'|e'] eqn:U.
  - apply IH.
  - intros [= <-]. revert U. unfold update_item, as_key.
    repeat (break_match; try discriminate); intros [= <-]; reflexivity.
Qed.

Lemma changes_of_faults text e :
  changes_of text = Raise e -> type_or_value e = true.
Proof.
  unfold changes_of, load, list_extend, py_iter.
  repeat (break_match; try discriminate); intros [= <-]; reflexivity.
Qed.

Lemma properties_of_faults text e :
  properties_of text = Raise e -> type_or_value e = true.
Proof.
  unfold properties_of, load, dict_update.
  destruct (json_loads text) as [v|]; [|intros [= <-]; reflexivity].
  destruct v; simpl; try (intros [= <-]; reflexivity); try discriminate;
    apply update_seq_faults.
Qed.

(** When the changes file does not parse, or parses to a value [extend]
    cannot iterate over, the message goes to the error stream, the fault
    is raised again and no request is issued. *)
Lemma put_changes_fault env (verb : bool) B path N pr rj fs text e :
  path <> EmptyString ->
  fs path = Some text ->
  changes_of text = Raise e ->
  run env (mkArgs verb (Put B (Some path) N pr) rj) fs =
  (Uncaught e,
   mkProc fs [] [path +++ " contained invalid JSON list." +++ nl] []).
Proof.
  intros NE F C. pose proof (changes_of_faults _ _ C) as T.
  unfold changes_of in C.
  rewrite run_cases. cbn [command build_request load_changes].
  rewrite (truthy_nonempty _ NE). unmonad. unfold boot at 1. simpl.
  rewrite F. simpl. destruct (load text) as [v|x]; simpl.
  - rewrite C, T. reflexivity.
  - injection C as ->. rewrite T. reflexivity.
Qed.

(** The same for the properties, read from a file or from standard
    input. *)
Lemma put_properties_fault env (verb : bool) B chg N path rj fs text e :
  truthy chg = false ->
  path <> EmptyString ->
  (if String.eqb path "-" then Some (stdin env) else fs path) = Some text ->
  properties_of text = Raise e ->
  run env (mkArgs verb (Put B chg N (Some path)) rj) fs =
  (Uncaught e,
   mkProc fs [] [path +++ " contained invalid JSON dict." +++ nl] []).
Proof.
  intros Hc NE F C. pose proof (properties_of_faults _ _ C) as T.
  unfold properties_of in C.
  rewrite run_cases.
  cbn [command build_request].
  assert (L : forall p, load_changes chg p = (Ok [], p)).
  { intros p. unfold load_changes. rewrite Hc. destruct chg; reflexivity. }
  unfold bind at 1. rewrite L. cbn [load_properties].
  rewrite (truthy_nonempty _ NE). unmonad. unfold boot at 1. simpl.
  destruct (String.eqb path "-"); simpl.
  - injection F as ->. destruct (load text) as [v|x]; simpl.
    + rewrite C, T. reflexivity.
    + injection C as ->. rewrite T. reflexivity.
  - rewrite F. simpl. destruct (load text) as [v|x]; simpl.
    + rewrite C, T. reflexivity.
    + injection C as ->. rewrite T. reflexivity.
Qed.

(** Conversely, whatever [extend] can iterate over is taken for the list of
    changes, and whatever [update] can merge for the properties: nothing is
    written, nothing is raised. *)
Lemma changes_accepted path text xs p :
  path <> EmptyString ->
  files p path = Some text ->
  changes_of text = Ok xs ->
  load_changes (Some path) p = (Ok xs, p).
Proof.
  intros NE F C. unfold changes_of in C. unfold load_changes.
  rewrite (truthy_nonempty _ NE). unmonad. rewrite F.
  destruct (load text) as [v|x]; [|discriminate]. rewrite C. reflexivity.
Qed.

Lemma properties_accepted env path text d p :
  path <> EmptyString ->
  (if String.eqb path "-" then Some (stdin env) else files p path)
  = Some text ->
  properties_of text = Ok d ->
  load_properties env (Some path) p = (Ok d, p).
Proof.
  intros NE F C. unfold properties_of in C. unfold load_properties.
  rewrite (truthy_nonempty _ NE). unmonad.
  destruct (String.eqb path "-").
  - injection F as ->.
    destruct (load text) as [v|x]; [|discriminate]. rewrite C. reflexivity.
  - rewrite F.
    destruct (load text) as [v|x]; [|discriminate]. rewrite C. reflexivity.
Qed.

(** A decoded object is iterable: its keys become the changes. *)
Lemma changes_of_object text d :
  json_loads text = Some (PDict d) ->
  changes_of text = Ok (dict_keys dict_order d).
Proof. unfold changes_of, load. intros ->. reflexivity. Qed.

(** A decoded list of two-element lists with string heads is mergeable. *)
Lemma properties_of_pair_list text k v :
  json_loads text = Some (PList [PList [PStr k; v]]) ->
  properties_of text = Ok [(KStr k, v)].
Proof. unfold properties_of, load. intros ->. reflexivity. Qed.

End InputFaults.

(** ** After the exchange: exit status and decoration *)

Section AfterExchange.
Context {R : Runtime}.

(** A run that issued [r] assembled it without a fault, and then went
    through the decoration. *)
Lemma run_after_exchange env a fs r :
  sent (snd (run env a fs)) = [r] ->
  run env a fs =
  match decorate env a (snd (http env r))
                 (exchanged env (verbose a) r (boot fs)) with
  | (Ok _, p3) =>
      (Exited (if status (fst (http env r)) =? 200 then 0 else 1), p3)
  | (Raise e, p3) => (Uncaught e, p3)
  end.
Proof.
  rewrite run_sent, run_cases.
  destruct (build_request env (command a) (boot fs)) as [[x|e] p1];
    [|discriminate].
  intros [= <-]. reflexivity.
Qed.

Lemma finish_ok v p : fst (finish v p) = Ok tt.
Proof. unfold finish. destruct (build_url_of v); reflexivity. Qed.

(** The decoration fails in one way only: the response file cannot be
    opened. *)
Lemma decorate_outcome env a content p :
  fst (decorate env a content p) = Ok tt
  \/ (fst (decorate env a content p) = Raise IOError
      /\ exists path, response_json a = Some path
                      /\ can_write env path = false).
Proof.
  rewrite decorate_cases.
  destruct (json_loads content) as [v|]; [|left; reflexivity].
  destruct (response_json a) as [path|]; [|left; apply finish_ok].
  destruct (truthy (Some path)); [|left; apply finish_ok].
  destruct (can_write env path) eqn:W; [left; apply finish_ok|].
  right. split; [reflexivity|]. exists path. split; [reflexivity|exact W].
Qed.

Lemma outcome_after_exchange env a fs r :
  sent (snd (run env a fs)) = [r] ->
  fst (run env a fs) = Exited (status_code (status (fst (http env r))))
  \/ (fst (run env a fs) = Uncaught IOError
      /\ exists path, response_json a = Some path
                      /\ can_write env path = false).
Proof.
  intros H. rewrite (run_after_exchange _ _ _ _ H).
  destruct (decorate_outcome env a (snd (http env r))
              (exchanged env (verbose a) r (boot fs))) as [D|[D W]];
    destruct (decorate env a _ _) as [[[]|e] q]; simpl in D;
    try discriminate.
  - left. reflexivity.
  - right. injection D as ->. split; [reflexivity|exact W].
Qed.

(** C4, amended: after the exchange the exit code is 1 for every status
    other than 200 and is 0 only for status 200; for status 200 it is 0
    as soon as the response file, if one was asked for, can be opened for
    writing. *)
Theorem exit_code_rule env a fs r :
  sent (snd (run env a fs)) = [r] ->
  let st := status (fst (http env r)) in
  let code := exit_code (fst (run env a fs)) in
  (st <> 200 -> code = 1)
  /\ (code = 0 -> st = 200)
  /\ ((forall path, response_json a = Some path -> can_write env path = true)
      -> (code = 0 <-> st = 200)).
Proof.
  intros H st code. subst code.
  destruct (outcome_after_exchange _ _ _ _ H) as [-> | [-> [path [Hp W]]]];
    fold st; unfold status_code; simpl.
  - destruct (st =? 200) eqn:E;
      [apply Z.eqb_eq in E | apply Z.eqb_neq in E].
    + repeat split; intros; (congruence || tauto).
    + repeat split; intros; try discriminate; tauto.
  - repeat split; intros; try discriminate; try reflexivity.
    match goal with
    | W' : forall q, _ -> can_write env q = true |- _ =>
        rewrite (W' path Hp) in W; discriminate
    end.
Qed.

(** C5: when the response body is not valid JSON, the run prints no
    [Build:] line (standard output holds the verbose trace and nothing
    else), leaves the file system as it was, writes nothing to the error
    stream and exits by the status rule. *)
Theorem invalid_body_is_ignored env a fs r :
  sent (snd (run env a fs)) = [r] ->
  json_loads (snd (http env r)) = None ->
  run env a fs =
  (Exited (status_code (status (fst (http env r)))),
   mkProc fs (if verbose a then trace_lines env r else []) [] [r]).
Proof.
  intros H J. rewrite (run_after_exchange _ _ _ _ H).
  rewrite decorate_cases, J. reflexivity.
Qed.

Lemma finish_files v p : files (snd (finish v p)) = files p.
Proof. unfold finish. destruct (build_url_of v); reflexivity. Qed.

(** C6, amended: with [--response-json <path>], provided the path is not
    empty and can be opened for writing, and a response body that is valid
    JSON, the named file holds the raw response body after the run. *)
Theorem response_file_holds_body env a fs r path :
  response_json a = Some path ->
  path <> EmptyString ->
  can_write env path = true ->
  sent (snd (run env a fs)) = [r] ->
  json_loads (snd (http env r)) <> None ->
  files (snd (run env a fs)) path = Some (snd (http env r)).
Proof.
  intros Hp N W H J. rewrite (run_after_exchange _ _ _ _ H).
  rewrite decorate_cases, Hp, (truthy_nonempty _ N), W.
  destruct (json_loads _) as [v|]; [|congruence].
  pose proof (finish_ok v (written path (snd (http env r))
                (exchanged env (verbose a) r (boot fs)))) as F.
  pose proof (finish_files v (written path (snd (http env r))
                (exchanged env (verbose a) r (boot fs)))) as G.
  destruct (finish v _) as [[[]|e] q]; simpl in *; [|discriminate].
  rewrite G, String.eqb_refl. reflexivity.
Qed.

(** Bodies without a [build.url] path: a list, or an object without the
    key [build]. *)
Lemma build_url_of_list l u : build_url_of (PList l) <> Ok u.
Proof. discriminate. Qed.

Lemma build_url_of_no_build d u :
  dict_get d (KStr "build") = None -> build_url_of (PDict d) <> Ok u.
Proof. unfold build_url_of, getitem. intros ->. discriminate. Qed.

(** C9, amended: with [--response-json <path>], provided the path is not
    empty and can be opened for writing, and a body that is valid JSON but
    has no [build.url], the file is written with the raw body, no
    [Build:] line is printed, and the run exits by the status rule. *)
Theorem capture_without_build_url env a fs r path v :
  response_json a = Some path ->
  path <> EmptyString ->
  can_write env path = true ->
  sent (snd (run env a fs)) = [r] ->
  json_loads (snd (http env r)) = Some v ->
  (forall u, build_url_of v <> Ok u) ->
  run env a fs =
  (Exited (status_code (status (fst (http env r)))),
   mkProc (fun q => if String.eqb q path then Some (snd (http env r))
                    else fs q)
          (if verbose a then trace_lines env r else []) [] [r]).
Proof.
  intros Hp N W H J U. rewrite (run_after_exchange _ _ _ _ H).
  rewrite decorate_cases, Hp, (truthy_nonempty _ N), W, J.
  unfold finish. destruct (build_url_of v) as [u|e] eqn:E.
  - destruct (U u eq_refl).
  - reflexivity.
Qed.

End AfterExchange.

(** ** Verbose mode *)

Section Verbose.
Context {R : Runtime}.

(** The decoration does not look at standard output: after the trace it
    ends the same way and prints the same lines. *)
Lemma decorate_verbose env (verb : bool) c rj content r fs :
  let q := decorate env (mkArgs false c rj) content
                    (exchanged env false r (boot fs)) in
  let v := decorate env (mkArgs verb c rj) content
                    (exchanged env verb r (boot fs)) in
  fst v = fst q
  /\ files (snd v) = files (snd q)
  /\ stderr (snd v) = stderr (snd q)
  /\ sent (snd v) = sent (snd q)
  /\ stdout (snd v) =
     (if verb then trace_lines env r else []) ++ stdout (snd q).
Proof.
  simpl. rewrite !decorate_cases. unfold finish, written, printed. simpl.
  repeat (break_match; simpl); rewrite ?app_nil_r;
    repeat split; reflexivity.
Qed.

(** C10: for fixed inputs, the runs with and without [--verbose] end the
    same way, issue the same requests, leave the same files and the same
    error stream; standard output differs by the trace lines alone, which
    come before everything else. *)
Theorem verbose_only_traces env c rj fs :
  let q := run env (mkArgs false c rj) fs in
  let v := run env (mkArgs true c rj) fs in
  fst v = fst q
  /\ sent (snd v) = sent (snd q)
  /\ files (snd v) = files (snd q)
  /\ stderr (snd v) = stderr (snd q)
  /\ stdout (snd v) =
     flat_map (trace_lines env) (sent (snd q)) ++ stdout (snd q).
Proof.
  simpl. rewrite !run_sent, !run_cases. simpl.
  destruct (build_request env c (boot fs)) as [[x|e] p1] eqn:E; simpl.
  - pose proof (decorate_verbose env true c rj
                  (snd (http env (request_of x))) (request_of x) fs)
      as (D1 & D2 & D3 & D4 & D5).
    simpl in *.
    destruct (decorate env (mkArgs true c rj) _ _) as [[[]|e1] pv];
      destruct (decorate env (mkArgs false c rj) _ _) as [[[]|e2] pq];
      simpl in *; try discriminate; subst;
      rewrite ?app_nil_r; repeat split; congruence.
  - repeat split; reflexivity.
Qed.

End Verbose.

(* ------------------------------------------------------------------ *)
(** * The concrete JSON library *)

Section JsonFacts.
Import Json.

Lemma append_assoc (a b c : string) : (a +++ b) +++ c = a +++ (b +++ c).
Proof. induction a as [|x a IH]; simpl; [reflexivity|]. now rewrite IH. Qed.

Lemma append_nil_r (a : string) : a +++ EmptyString = a.
Proof. induction a as [|x a IH]; simpl; [reflexivity|]. now rewrite IH. Qed.

(** Decoding an encoded character gives it back. *)
Lemma scan_esc_char (c : ascii) (tail : string) :
  is_ascii c = true ->
  scan_string (esc_char c +++ tail) = push c (scan_string tail).
Proof.
  destruct c as [b0 b1 b2 b3 b4 b5 b6 b7].
  destruct b7; [intros A; exfalso; revert A|intros _].
  - destruct b0, b1, b2, b3, b4, b5, b6; discriminate.
  - destruct b0, b1, b2, b3, b4, b5, b6; reflexivity.
Qed.

(** The decoder reads back the body of an encoded ASCII string, up to the
    closing quote. *)
Lemma scan_string_esc (s rest : string) :
  ascii_str s = true ->
  scan_string (esc_body s +++ String dq rest) = Some (s, rest).
Proof.
  induction s as [|c s IH]; intros A.
  - reflexivity.
  - simpl in A. apply andb_prop in A as [Ac As].
    cbn [esc_body]. rewrite append_assoc, (scan_esc_char _ _ Ac).
    rewrite (IH As). reflexivity.
Qed.

(** *** Fuel *)

Lemma parse_value_S f s :
  parse_value (S f) s = value_body (parse_elems f) (parse_members f) s.
Proof. reflexivity. Qed.

Lemma parse_elems_S f s acc :
  parse_elems (S f) s acc =
  elems_body (parse_value f) (parse_elems f) s acc.
Proof. reflexivity. Qed.

Lemma parse_members_S f s acc :
  parse_members (S f) s acc =
  members_body (parse_value f) (parse_members f) s acc.
Proof. reflexivity. Qed.

(** More fuel never changes an answer. *)
Lemma parse_more_fuel n :
  (forall s r, parse_value n s = Some r -> parse_value (S n) s = Some r)
  /\ (forall s acc r, parse_elems n s acc = Some r ->
                      parse_elems (S n) s acc = Some r)
  /\ (forall s acc r, parse_members n s acc = Some r ->
                      parse_members (S n) s acc = Some r).
Proof.
  induction n as [|n (IHv & IHe & IHm)].
  - repeat split; discriminate.
  - repeat split.
    + intros s r. rewrite (parse_value_S (S n)), (parse_value_S n).
      unfold value_body.
      repeat (break_match; try discriminate; try tauto); auto.
    + intros s acc r. rewrite (parse_elems_S (S n)), (parse_elems_S n).
      unfold elems_body.
      destruct (parse_value n s) as [[v r0]|] eqn:E; [|discriminate].
      rewrite (IHv _ _ E).
      repeat (break_match; try discriminate; try tauto); auto.
    + intros s acc r. rewrite (parse_members_S (S n)), (parse_members_S n).
      unfold members_body.
      destruct s as [|c r0]; [discriminate|].
      destruct (c =? dq)%char; [|discriminate].
      destruct (scan_string r0) as [[k r1]|]; [|discriminate].
      destruct (skip_ws r1) as [|c1 r2]; [discriminate|].
      destruct (c1 =? ":")%char; [|discriminate].
      destruct (parse_value n (skip_ws r2)) as [[v r3]|] eqn:E;
        [|discriminate].
      rewrite (IHv _ _ E).
      repeat (break_match; try discriminate; try tauto); auto.
Qed.

Lemma parse_value_fuel n m s r :
  (n <= m)%nat -> parse_value n s = Some r -> parse_value m s = Some r.
Proof.
  induction 1 as [|m L IH]; [tauto|].
  intros H. apply parse_more_fuel. exact (IH H).
Qed.

(** A successful parse with little fuel is an answer of [loads]. *)
Lemma loads_intro n s v r :
  parse_value n (skip_ws s) = Some (v, r) ->
  skip_ws r = EmptyString ->
  (n <= 2 * String.length s + 2)%nat ->
  loads s = Some v.
Proof.
  intros P W L. unfold loads.
  rewrite (parse_value_fuel _ _ _ _ L P), W. reflexivity.
Qed.

(** *** The encoder stays within ASCII *)

Lemma ascii_str_app (a b : string) :
  ascii_str (a +++ b) = ascii_str a && ascii_str b.
Proof.
  induction a as [|x a IH]; simpl; [reflexivity|].
  now rewrite IH, andb_assoc.
Qed.

Lemma esc_char_ascii (c : ascii) : ascii_str (esc_char c) = true.
Proof.
  destruct c as [b0 b1 b2 b3 b4 b5 b6 b7].
  destruct b0, b1, b2, b3, b4, b5, b6, b7; reflexivity.
Qed.

Lemma esc_body_ascii (s : string) : ascii_str (esc_body s) = true.
Proof.
  induction s as [|c s IH]; [reflexivity|].
  cbn [esc_body]. now rewrite ascii_str_app, esc_char_ascii, IH.
Qed.

Lemma enc_str_ascii (s : string) : ascii_str (enc_str s) = true.
Proof.
  unfold enc_str. cbn [ascii_str].
  now rewrite ascii_str_app, esc_body_ascii.
Qed.

(** *** The orders of two and of three keys *)

Lemma perm2_cases {A} (a b : A) (l : list A) :
  Permutation l [a; b] -> l = [a; b] \/ l = [b; a].
Proof.
  intros P. apply Permutation_sym in P.
  exact (Permutation_length_2_inv P).
Qed.

Lemma perm3_cases {A} (a b c : A) (l : list A) :
  Permutation l [a; b; c] ->
  l = [a; b; c] \/ l = [a; c; b] \/ l = [b; a; c]
  \/ l = [b; c; a] \/ l = [c; a; b] \/ l = [c; b; a].
Proof.
  intros P. pose proof (Permutation_length P) as L.
  destruct l as [|x [|y [|z [|w l]]]]; try discriminate L. clear L.
  assert (I : In x [a; b; c])
    by (apply (Permutation_in x P); left; reflexivity).
  destruct I as [<-|[<-|[<-|[]]]].
  - apply Permutation_cons_inv in P.
    destruct (perm2_cases _ _ _ P) as [[= -> ->]|[= -> ->]]; tauto.
  - apply (Permutation_cons_app_inv [a] [c]) in P.
    destruct (perm2_cases _ _ _ P) as [[= -> ->]|[= -> ->]]; tauto.
  - apply (Permutation_cons_app_inv [a; b] []) in P.
    destruct (perm2_cases _ _ _ P) as [[= -> ->]|[= -> ->]]; tauto.
Qed.

End JsonFacts.

(** ** The decoder has fuel enough *)

Section FuelAdequacy.
Import Json.
Local Open Scope nat_scope.

Local Abbreviation len := String.length.

Lemma skip_ws_len s : len (skip_ws s) <= len s.
Proof.
  induction s as [|c s IH]; simpl; [lia|].
  destruct (is_ws c); simpl; lia.
Qed.

Lemma push_len c o x r :
  push c o = Some (x, r) -> exists y, o = Some (y, r).
Proof.
  destruct o as [[y r']|]; simpl; [|discriminate].
  intros [= _ <-]. now exists y.
Qed.

Lemma scan_string_len s : forall x r,
  scan_string s = Some (x, r) -> len r < len s.
Proof.
  induction s as [s IH] using (well_founded_induction
                                 (Wf_nat.well_founded_ltof _ len)).
  unfold Wf_nat.ltof in IH.
  destruct s as [|c s]; intros x r; cbn [scan_string]; [discriminate|].
  destruct (c =? dq)%char; [intros [= _ <-]; simpl; lia|].
  destruct (c =? bs)%char.
  - destruct s as [|e s1]; [discriminate|].
    destruct (e =? "u")%char.
    + destruct s1 as [|h1 [|h2 [|h3 [|h4 r2]]]]; try discriminate.
      destruct (unhex4 h1 h2 h3 h4) as [n|]; [|discriminate].
      destruct (n <? 128)%N; [|discriminate].
      intros H. apply push_len in H as [y H].
      apply IH in H; simpl in *; lia.
    + destruct (unescape e); [|discriminate].
      intros H. apply push_len in H as [y H].
      apply IH in H; simpl in *; lia.
  - destruct (N_of_ascii c <? 32)%N; [discriminate|].
    destruct (is_ascii c); [|discriminate].
    intros H. apply push_len in H as [y H].
    apply IH in H; simpl in *; lia.
Qed.

Lemma strip_prefix_len p : forall s r,
  strip_prefix p s = Some r -> len s = len p + len r.
Proof.
  induction p as [|a p IH]; intros s r; simpl.
  - intros [= <-]. reflexivity.
  - destruct s as [|b s]; [discriminate|].
    destruct (a =? b)%char; [|discriminate].
    intros H. apply IH in H. simpl. lia.
Qed.

Lemma scan_digits_len s : forall acc, len (snd (scan_digits acc s)) <= len s.
Proof.
  induction s as [|c s IH]; intros acc; cbn [scan_digits]; [simpl; lia|].
  destruct (digit c) as [d|]; cbn [snd String.length]; [|lia].
  specialize (IH (10 * acc + d)%Z). lia.
Qed.

Lemma scan_nat_len s n r : scan_nat s = Some (n, r) -> len r < len s.
Proof.
  unfold scan_nat. destruct s as [|c s]; [discriminate|].
  destruct (digit c) as [d|]; [|discriminate].
  pose proof (scan_digits_len s d) as L.
  destruct (scan_digits d s) as [m r'] eqn:E. simpl in L.
  destruct d; repeat (break_match; try discriminate);
    intros [= <- <-]; simpl; lia.
Qed.

Lemma scan_number_len s v r : scan_number s = Some (v, r) -> len r < len s.
Proof.
  unfold scan_number.
  destruct s as [|c s]; [discriminate|].
  assert (G : forall t, match scan_nat t with
                        | Some (n, r') => Some (PInt n, r')
                        | None => None
                        end = Some (v, r) -> len r < len t).
  { intros t. destruct (scan_nat t) as [[n r']|] eqn:E; [|discriminate].
    intros [= _ <-]. exact (scan_nat_len _ _ _ E). }
  destruct (Ascii.eqb_spec c "-"%char) as [->|NE].
  - destruct (scan_nat s) as [[n r']|] eqn:E; [|discriminate].
    intros [= _ <-]. apply scan_nat_len in E. simpl. lia.
  - intros H. apply G.
    destruct c as [[] [] [] [] [] [] [] []]; try exact H.
    contradiction NE; reflexivity.
Qed.

Lemma scan_atom_len s v r : scan_atom s = Some (v, r) -> len r < len s.
Proof.
  unfold scan_atom.
  destruct (strip_prefix "null" s) eqn:E1.
  { intros [= _ <-]. apply strip_prefix_len in E1. simpl in E1. lia. }
  destruct (strip_prefix "true" s) eqn:E2.
  { intros [= _ <-]. apply strip_prefix_len in E2. simpl in E2. lia. }
  destruct (strip_prefix "false" s) eqn:E3.
  { intros [= _ <-]. apply strip_prefix_len in E3. simpl in E3. lia. }
  apply scan_number_len.
Qed.

Lemma parse_elems_fuel n m s acc r :
  n <= m -> parse_elems n s acc = Some r -> parse_elems m s acc = Some r.
Proof.
  induction 1 as [|m L IH]; [tauto|].
  intros H. apply parse_more_fuel. exact (IH H).
Qed.

Lemma parse_members_fuel n m s acc r :
  n <= m -> parse_members n s acc = Some r -> parse_members m s acc = Some r.
Proof.
  induction 1 as [|m L IH]; [tauto|].
  intros H. apply parse_more_fuel. exact (IH H).
Qed.

(** A fuel that is positive, split. *)
Lemma fuel_S (k : nat) : 0 < k -> 2 * k = S (2 * k - 1).
Proof. lia. Qed.

(** A successful parse consumes input, and twice the number of characters
    consumed is fuel enough for it. *)
Lemma parse_bounded n :
  (forall s v r, parse_value n s = Some (v, r) ->
     len r < len s /\ parse_value (2 * (len s - len r)) s = Some (v, r))
  /\ (forall s acc v r, parse_elems n s acc = Some (v, r) ->
        len r < len s
        /\ parse_elems (2 * (len s - len r)) s acc = Some (v, r))
  /\ (forall s acc v r, parse_members n s acc = Some (v, r) ->
        len r < len s
        /\ parse_members (2 * (len s - len r)) s acc = Some (v, r)).
Proof.
  induction n as [|n (IHv & IHe & IHm)]; [repeat split; discriminate|].
  repeat apply conj.
  - (* values *)
    intros s v r. rewrite parse_value_S. unfold value_body.
    destruct s as [|c r0] eqn:Es; [discriminate|].
    assert (K : forall (L : len r < len (String c r0)),
               value_body (parse_elems (2 * (len (String c r0) - len r) - 1))
                          (parse_members (2 * (len (String c r0) - len r) - 1))
                          (String c r0) = Some (v, r) ->
               len r < len (String c r0)
               /\ parse_value (2 * (len (String c r0) - len r)) (String c r0)
                  = Some (v, r)).
    { intros L H. split; [exact L|].
      rewrite (fuel_S (len (String c r0) - len r)) by lia.
      rewrite parse_value_S. exact H. }
    unfold value_body in K.
    destruct (c =? dq)%char.
    { destruct (scan_string r0) as [[x r']|] eqn:E; [|discriminate].
      intros [= <- <-]. apply scan_string_len in E.
      apply K; [cbn [String.length]; lia|reflexivity]. }
    destruct (c =? "{")%char.
    { pose proof (skip_ws_len r0) as W.
      destruct (skip_ws r0) as [|c' r'] eqn:E; [discriminate|].
      destruct (c' =? "}")%char.
      - intros [= <- <-]. apply K; [cbn [String.length] in *; lia|reflexivity].
      - intros H. apply IHm in H as [L H].
        apply K; [cbn [String.length] in *; lia|].
        eapply parse_members_fuel; [|exact H]. cbn [String.length] in *; lia. }
    destruct (c =? "[")%char.
    { pose proof (skip_ws_len r0) as W.
      destruct (skip_ws r0) as [|c' r'] eqn:E; [discriminate|].
      destruct (c' =? "]")%char.
      - intros [= <- <-]. apply K; [cbn [String.length] in *; lia|reflexivity].
      - intros H. apply IHe in H as [L H].
        apply K; [cbn [String.length] in *; lia|].
        eapply parse_elems_fuel; [|exact H]. cbn [String.length] in *; lia. }
    intros H. pose proof (scan_atom_len _ _ _ H) as L.
    apply K; [exact L|exact H].
  - (* elements *)
    intros s acc v r. rewrite parse_elems_S. unfold elems_body.
    destruct (parse_value n s) as [[v1 r1]|] eqn:E1; [|discriminate].
    apply IHv in E1 as [L1 E1].
    pose proof (skip_ws_len r1) as W1.
    destruct (skip_ws r1) as [|c r'] eqn:E2; [discriminate|].
    assert (K : forall (L : len r <= len r'),
               match skip_ws r1 with
               | EmptyString => None
               | String c r' =>
                   if (c =? ",")%char
                   then parse_elems (2 * (len s - len r) - 1) (skip_ws r')
                                    (acc ++ [v1])
                   else if (c =? "]")%char
                        then Some (PList (acc ++ [v1]), r')
                        else None
               end = Some (v, r) ->
               len r < len s
               /\ parse_elems (2 * (len s - len r)) s acc = Some (v, r)).
    { intros L H. cbn [String.length] in W1. split; [lia|].
      rewrite (fuel_S (len s - len r)) by lia.
      rewrite parse_elems_S. unfold elems_body.
      rewrite (parse_value_fuel (2 * (len s - len r1))
                 (2 * (len s - len r) - 1) _ _ ltac:(lia) E1).
      exact H. }
    rewrite E2 in K.
    destruct (c =? ",")%char.
    { intros H. apply IHe in H as [L H].
      pose proof (skip_ws_len r') as W2.
      apply K; [lia|].
      eapply parse_elems_fuel; [|exact H]. cbn [String.length] in *; lia. }
    destruct (c =? "]")%char; [|discriminate].
    intros [= <- <-]. apply K; [lia|reflexivity].
  - (* members *)
    intros s acc v r. rewrite parse_members_S. unfold members_body.
    destruct s as [|c r0]; [discriminate|].
    destruct (c =? dq)%char eqn:Ec; [|discriminate].
    destruct (scan_string r0) as [[k r1]|] eqn:E1; [|discriminate].
    pose proof (scan_string_len _ _ _ E1) as L1.
    pose proof (skip_ws_len r1) as W1.
    destruct (skip_ws r1) as [|c1 r2] eqn:E2; [discriminate|].
    destruct (c1 =? ":")%char eqn:Ec1; [|discriminate].
    pose proof (skip_ws_len r2) as W2.
    destruct (parse_value n (skip_ws r2)) as [[v1 r3]|] eqn:E3;
      [|discriminate].
    apply IHv in E3 as [L3 E3].
    pose proof (skip_ws_len r3) as W3.
    destruct (skip_ws r3) as [|c3 r4] eqn:E4; [discriminate|].
    assert (K : forall (L : len r <= len r4),
               (if (c3 =? ",")%char
                then parse_members (2 * (len (String c r0) - len r) - 1)
                                   (skip_ws r4) (dict_set acc (KStr k) v1)
                else if (c3 =? "}")%char
                     then Some (PDict (dict_set acc (KStr k) v1), r4)
                     else None) = Some (v, r) ->
               len r < len (String c r0)
               /\ parse_members (2 * (len (String c r0) - len r))
                                (String c r0) acc = Some (v, r)).
    { intros L H. cbn [String.length] in *. split; [lia|].
      rewrite (fuel_S (S (len r0) - len r)) by lia.
      rewrite parse_members_S. unfold members_body.
      rewrite Ec, E1, E2, Ec1.
      rewrite (parse_value_fuel (2 * (len (skip_ws r2) - len r3))
                 (2 * (S (len r0) - len r) - 1) _ _ ltac:(lia) E3).
      rewrite E4. exact H. }
    destruct (c3 =? ",")%char.
    { intros H. apply IHm in H as [L H].
      pose proof (skip_ws_len r4) as W4.
      apply K; [lia|].
      eapply parse_members_fuel; [|exact H]. cbn [String.length] in *; lia. }
    destruct (c3 =? "}")%char; [|discriminate].
    intros [= <- <-]. apply K; [lia|reflexivity].
Qed.

(** [loads] has fuel enough: whatever some amount of fuel decodes, [loads]
    decodes. *)
Lemma loads_any_fuel n s v r :
  parse_value n (skip_ws s) = Some (v, r) ->
  skip_ws r = EmptyString ->
  loads s = Some v.
Proof.
  intros P W. apply (proj1 (parse_bounded n)) in P as [L P].
  pose proof (skip_ws_len s) as Ls.
  eapply loads_intro; [exact P|exact W|lia].
Qed.


End FuelAdequacy.

(* ------------------------------------------------------------------ *)
(** * The body of [put] *)

Section PutBody.
Import Json.

(** Any iteration order of dictionaries. *)
Variable ord : list pykey -> list pykey.
Hypothesis ord_perm : forall ks, Permutation (ord ks) ks.

Lemma ord_nil : ord [] = [].
Proof. apply Permutation_nil, Permutation_sym, ord_perm. Qed.

Ltac parse_through :=
  eapply (loads_any_fuel 8);
  [ simpl; unfold enc_str; simpl;
    repeat (rewrite ?append_assoc; simpl;
            rewrite scan_string_esc by assumption; simpl);
    reflexivity
  | reflexivity ].

Ltac perm :=
  repeat first
    [ apply perm_nil
    | apply (Permutation_cons_app [] _ _); simpl
    | apply (Permutation_cons_app [_] _ _); simpl
    | apply (Permutation_cons_app [_; _] _ _); simpl ].

Lemma parameters_roundtrip (N : string) :
  ascii_str N = true ->
  exists inner,
    loads (enc ord (parameters N [] [])) = Some (PDict inner)
    /\ Permutation inner
         [(KStr "builder_name", PStr N); (KStr "changes", PList []);
          (KStr "properties", PDict [])].
Proof.
  intros HN. unfold parameters. cbn [enc map]. unfold members.
  cbn [map fst]. rewrite ord_nil.
  destruct (perm3_cases _ _ _ _
              (ord_perm [KStr "builder_name"; KStr "changes";
                         KStr "properties"]))
    as [E|[E|[E|[E|[E|E]]]]]; rewrite E; clear E;
    (eexists; split; [parse_through | perm]).
Qed.

Lemma put_body_roundtrip (B s : string) :
  ascii_str B = true ->
  ascii_str s = true ->
  exists outer,
    loads (enc ord (put_body B s)) = Some (PDict outer)
    /\ Permutation outer
         [(KStr "bucket", PStr B); (KStr "parameters_json", PStr s)].
Proof.
  intros HB Hs. unfold put_body. cbn [enc map]. unfold members.
  cbn [map fst].
  destruct (perm2_cases _ _ _
              (ord_perm [KStr "bucket"; KStr "parameters_json"]))
    as [E|E]; rewrite E; clear E;
    (eexists; split; [parse_through | perm]).
Qed.

(** The encoder's output is ASCII on the fragment it accepts; here for
    the parameters of a default [put]. *)
Lemma parameters_ascii (N : string) :
  ascii_str (enc ord (parameters N [] [])) = true.
Proof.
  unfold parameters. cbn [enc map]. unfold members. cbn [map fst].
  rewrite ord_nil.
  destruct (perm3_cases _ _ _ _
              (ord_perm [KStr "builder_name"; KStr "changes";
                         KStr "properties"]))
    as [E|[E|[E|[E|[E|E]]]]]; rewrite E; clear E;
    simpl; rewrite ?ascii_str_app, ?esc_body_ascii; reflexivity.
Qed.

Lemma dumps_parameters (N : string) :
  ascii_str N = true ->
  dumps ord (parameters N [] []) = Some (enc ord (parameters N [] [])).
Proof.
  intros HN. unfold dumps. cbn [in_fragment parameters forallb ascii_str].
  rewrite HN. reflexivity.
Qed.

Lemma dumps_put_body (B s : string) :
  ascii_str B = true ->
  ascii_str s = true ->
  dumps ord (put_body B s) = Some (enc ord (put_body B s)).
Proof.
  intros HB Hs. unfold dumps. cbn [in_fragment put_body forallb ascii_str].
  rewrite HB, Hs. reflexivity.
Qed.

(** C3: [put] with bucket [B] and builder [N] (ASCII text), without a
    changes file and without a properties source (the options absent, or
    empty), sends one [PUT] to the base API URL whose body decodes to an
    object with the two fields [bucket = B] and [parameters_json = s],
    where the string [s] decodes to an object with the three fields
    [builder_name = N], [changes = []] and [properties = {}]; the fields
    come in the dictionary's order. *)
Theorem put_default_body env (verb : bool) (B N : string) chg pr rj fs :
  truthy chg = false ->
  truthy pr = false ->
  ascii_str B = true ->
  ascii_str N = true ->
  exists body s outer inner,
    sent (snd (run (R := runtime ord) env
                   (mkArgs verb (Put B chg N pr) rj) fs)) =
    [ mkRequest BUILDBUCKET_API_URL "PUT" (Some body) content_type ]
    /\ loads body = Some (PDict outer)
    /\ Permutation outer
         [(KStr "bucket", PStr B); (KStr "parameters_json", PStr s)]
    /\ loads s = Some (PDict inner)
    /\ Permutation inner
         [(KStr "builder_name", PStr N); (KStr "changes", PList []);
          (KStr "properties", PDict [])].
Proof.
  intros Hc Hp HB HN.
  destruct (parameters_roundtrip N HN) as (inner & L1 & P1).
  destruct (put_body_roundtrip B _ HB (parameters_ascii N))
    as (outer & L2 & P2).
  exists (enc ord (put_body B (enc ord (parameters N [] [])))),
         (enc ord (parameters N [] [])), outer, inner.
  repeat split; try assumption.
  rewrite run_sent.
  cbn [command build_request].
  assert (C : forall p, load_changes (R := runtime ord) chg p = (Ok [], p)).
  { intros p. unfold load_changes. rewrite Hc. destruct chg; reflexivity. }
  assert (Q : forall p,
             load_properties (R := runtime ord) env pr p = (Ok [], p)).
  { intros p. unfold load_properties. rewrite Hp. destruct pr; reflexivity. }
  unfold bind. rewrite C, Q.
  unfold ret, Script.dumps. cbn [json_dumps runtime].
  fold (parameters N [] []). rewrite (dumps_parameters N HN).
  unfold ret.
  fold (put_body B (enc ord (parameters N [] []))).
  rewrite (dumps_put_body B _ HB (parameters_ascii N)).
  reflexivity.
Qed.

End PutBody.

(* ------------------------------------------------------------------ *)
(** * Concrete runs *)

Lemma insertion_order_perm ks :
  Permutation (Fixtures.insertion_order ks) ks.
Proof. apply Permutation_refl. Qed.

Section Examples.
Import Json Fixtures.

(** C1, at the failing input: the changes file holds the object
    [{"not":"a list"}]: [extend]
    iterates over its keys, nothing is written to the error stream and
    the request goes out with [changes = ["not"]]. *)
Example changes_object_is_sent :
  let env := mkEnv "" anywhere (answer 200 "{}") in
  let a := mkArgs false (Put "B" (Some "changes.json") "N" None) None in
  let fs := file "changes.json" (qq "{'not':'a list'}") in
  let s := qq "{'builder_name': 'N', 'changes': ['not'], 'properties': {}}" in
  let body :=
    qq "{'bucket': 'B', 'parameters_json': '{\'builder_name\': \'N\', \'changes\': [\'not\'], \'properties\': {}}'}" in
  loads (qq "{'not':'a list'}") = Some (PDict [(KStr "not", PStr "a list")])
  /\ run (R := py) env a fs =
     (Exited 0, mkProc fs [] [] [request "PUT" BUILDBUCKET_API_URL (Some body)])
  /\ loads body =
     Some (PDict [(KStr "bucket", PStr "B"); (KStr "parameters_json", PStr s)])
  /\ loads s =
     Some (PDict [(KStr "builder_name", PStr "N");
                  (KStr "changes", PList [PStr "not"]);
                  (KStr "properties", PDict [])]).
Proof. repeat split; vm_compute; reflexivity. Qed.

(** C2, at the failing input: the properties arrive on standard input as
    the list
    [[["foo","bar"]]]: [update] takes it for a sequence of pairs, nothing
    is written to the error stream and the request goes out with
    [properties = {"foo": "bar"}]. *)
Example properties_list_is_sent :
  let env := mkEnv (qq "[['foo','bar']]") anywhere (answer 200 "{}") in
  let a := mkArgs false (Put "B" None "N" (Some "-")) None in
  let s := qq "{'builder_name': 'N', 'changes': [], 'properties': {'foo': 'bar'}}" in
  let body :=
    qq "{'bucket': 'B', 'parameters_json': '{\'builder_name\': \'N\', \'changes\': [], \'properties\': {\'foo\': \'bar\'}}'}" in
  loads (qq "[['foo','bar']]") = Some (PList [PList [PStr "foo"; PStr "bar"]])
  /\ run (R := py) env a no_files =
     (Exited 0,
      mkProc no_files [] [] [request "PUT" BUILDBUCKET_API_URL (Some body)])
  /\ loads body =
     Some (PDict [(KStr "bucket", PStr "B"); (KStr "parameters_json", PStr s)])
  /\ loads s =
     Some (PDict [(KStr "builder_name", PStr "N");
                  (KStr "changes", PList []);
                  (KStr "properties", PDict [(KStr "foo", PStr "bar")])]).
Proof. repeat split; vm_compute; reflexivity. Qed.

(** The decoder on a few texts: blanks, nesting, a repeated key, short
    escapes; a leading zero, a trailing comma, a raw control character and a
    truncated literal are refused. *)
Example loads_samples :
  map (fun t => loads (qq t))
      [" [ 1 , -20 ] "; "{'a' : 1 , 'b': [], 'a': null}"; "'x\/yA\n'";
       "-0"; "01"; "[1,]"; "tru"; "{'a' 1}"]
  = [Some (PList [PInt 1; PInt (-20)]);
     Some (PDict [(KStr "a", PNone); (KStr "b", PList [])]);
     Some (PStr ("x/yA" +++ nl));
     Some (PInt 0); None; None; None; None]
  /\ loads (String dq (String "001" (String dq ""))) = None.
Proof. split; reflexivity. Qed.

(** The encoder: separators, escapes, constants. *)
Example dumps_sample :
  dumps insertion_order
        (PDict [(KStr "k", PStr (qq "a'b\c" +++ String "001" (String "127" nl)));
                (KStr "l", PList [PInt (-3); PNone; PBool true]);
                (KStr "e", PDict [])])
  = Some (qq "{'k': 'a\'b\\c\u0001\u007f\n', 'l': [-3, null, true], 'e': {}}").
Proof. reflexivity. Qed.

(** [extend] and [update] on decoded values of each top-level type. *)
Example extend_samples :
  map (fun t => changes_of (R := py) (qq t))
      ["[{'a':1}]"; "{'not':'a list'}"; "'ab'"; "null"; "1"; "true"; "{"]
  = [Ok [PDict [(KStr "a", PInt 1)]]; Ok [PStr "not"];
     Ok [PStr "a"; PStr "b"];
     Raise TypeError; Raise TypeError; Raise TypeError; Raise ValueError].
Proof. reflexivity. Qed.

Example update_samples :
  map (fun t => properties_of (R := py) (qq t))
      ["{'foo':'bar','baz':42}"; "[['foo','bar']]"; "[]"; "''"; "['ab']";
       "[[1,'x'],[true,'y']]";
       "'ab'"; "[1]"; "[[1,2,3]]"; "[[[1],2]]"; "null"; "5"; "{"]
  = [Ok [(KStr "foo", PStr "bar"); (KStr "baz", PInt 42)];
     Ok [(KStr "foo", PStr "bar")]; Ok []; Ok [];
     Ok [(KStr "a", PStr "b")];
     Ok [(KInt 1, PStr "y")];
     Raise ValueError; Raise TypeError; Raise ValueError; Raise TypeError;
     Raise TypeError; Raise TypeError; Raise ValueError].
Proof. reflexivity. Qed.

End Examples.

Section Witnesses.
Import Json Fixtures.

(** C3 at bucket [B], builder [N], dictionaries in insertion order. *)
Lemma put_default_body_witness :
  exists body s outer inner,
    sent (snd (run (R := runtime insertion_order)
                   (mkEnv "" anywhere (answer 200 "{}"))
                   (mkArgs false (Put "B" None "N" None) None) no_files)) =
    [ mkRequest BUILDBUCKET_API_URL "PUT" (Some body) content_type ]
    /\ loads body = Some (PDict outer)
    /\ Permutation outer
         [(KStr "bucket", PStr "B"); (KStr "parameters_json", PStr s)]
    /\ loads s = Some (PDict inner)
    /\ Permutation inner
         [(KStr "builder_name", PStr "N"); (KStr "changes", PList []);
          (KStr "properties", PDict [])].
Proof.
  apply (put_default_body insertion_order insertion_order_perm
           (mkEnv "" anywhere (answer 200 "{}")) false "B" "N" None None
           None no_files); reflexivity.
Defined.

(** C4 at [get --id 1 --response-json out.json], status 200, a body that
    is an empty object, a writable file. *)
Lemma exit_code_rule_witness :
  let env := mkEnv "" anywhere (answer 200 "{}") in
  let a := mkArgs false (Get "1") (Some "out.json") in
  sent (snd (run (R := py) env a no_files)) = [get1]
  /\ (forall path, response_json a = Some path -> can_write env path = true)
  /\ (exit_code (fst (run (R := py) env a no_files)) = 0
      <-> status (fst (http env get1)) = 200).
Proof.
  split; [reflexivity|]. split; [reflexivity|].
  apply (exit_code_rule (R := py)
           (mkEnv "" anywhere (answer 200 "{}"))
           (mkArgs false (Get "1") (Some "out.json")) no_files get1);
    reflexivity.
Defined.

(** C4 as stated fails: status 200, a valid body, and a response file
    that cannot be opened.  The [IOError] is not among the exceptions the
    script catches, and the process ends with status 1. *)
Lemma exit_code_unwritable_response_file :
  let env := mkEnv "" nowhere (answer 200 "{}") in
  let a := mkArgs false (Get "1") (Some "out.json") in
  sent (snd (run (R := py) env a no_files)) = [get1]
  /\ status (fst (http env get1)) = 200
  /\ run (R := py) env a no_files =
     (Uncaught IOError, mkProc no_files [] [] [get1])
  /\ exit_code (fst (run (R := py) env a no_files)) = 1
  /\ ~ (exit_code (fst (run (R := py) env a no_files)) = 0
        <-> status (fst (http env get1)) = 200).
Proof.
  repeat split; try reflexivity.
  intros [_ H]. specialize (H eq_refl). vm_compute in H. discriminate H.
Qed.

(** C5 at [retry --id 7 --response-json out.json] in verbose mode, status
    404, a body that is not JSON. *)
Lemma invalid_body_is_ignored_witness :
  let env := mkEnv "" anywhere (answer 404 "Not Found") in
  let a := mkArgs true (Retry "7") (Some "out.json") in
  let r := request "PUT" (BUILDBUCKET_API_URL +++ "/7/retry") None in
  loads "Not Found" = None
  /\ run (R := py) env a no_files =
     (Exited 1, mkProc no_files (trace_lines env r) [] [r]).
Proof.
  split; [reflexivity|].
  apply (invalid_body_is_ignored (R := py)
           (mkEnv "" anywhere (answer 404 "Not Found"))
           (mkArgs true (Retry "7") (Some "out.json")) no_files
           (request "PUT" (BUILDBUCKET_API_URL +++ "/7/retry") None));
    reflexivity.
Defined.

(** C6 at the body [{"ok":true}]. *)
Lemma response_file_holds_body_witness :
  let env := mkEnv "" anywhere (answer 200 (qq "{'ok':true}")) in
  let a := mkArgs false (Get "1") (Some "out.json") in
  loads (qq "{'ok':true}") = Some (PDict [(KStr "ok", PBool true)])
  /\ files (snd (run (R := py) env a no_files)) "out.json" =
     Some (qq "{'ok':true}").
Proof.
  split; [reflexivity|].
  apply (response_file_holds_body (R := py)
           (mkEnv "" anywhere (answer 200 (qq "{'ok':true}")))
           (mkArgs false (Get "1") (Some "out.json")) no_files get1
           "out.json");
    try reflexivity; discriminate.
Defined.

(** C6 as stated fails: [--response-json out.json] is supplied and the
    body [{"ok":true}] is valid JSON, but the path cannot be opened for
    writing: the [IOError] ends the run and there is no file.  With an
    empty path, nothing is opened at all. *)
Lemma response_file_not_written :
  let env := mkEnv "" nowhere (answer 200 (qq "{'ok':true}")) in
  let a := mkArgs false (Get "1") (Some "out.json") in
  let e := mkArgs false (Get "1") (Some "") in
  response_json a = Some "out.json"
  /\ sent (snd (run (R := py) env a no_files)) = [get1]
  /\ loads (snd (http env get1)) = Some (PDict [(KStr "ok", PBool true)])
  /\ run (R := py) env a no_files =
     (Uncaught IOError, mkProc no_files [] [] [get1])
  /\ files (snd (run (R := py) env a no_files)) "out.json" = None
  /\ run (R := py) (mkEnv "" anywhere (answer 200 (qq "{'ok':true}")))
         e no_files =
     (Exited 0, mkProc no_files [] [] [get1]).
Proof. repeat split; reflexivity. Qed.

(** C9 at a body that is a JSON list. *)
Lemma capture_without_build_url_witness :
  let env := mkEnv "" anywhere (answer 200 "[1, 2]") in
  let a := mkArgs false (Get "1") (Some "out.json") in
  loads "[1, 2]" = Some (PList [PInt 1; PInt 2])
  /\ run (R := py) env a no_files =
     (Exited 0, mkProc (file "out.json" "[1, 2]") [] [] [get1]).
Proof.
  split; [reflexivity|].
  apply (capture_without_build_url (R := py)
           (mkEnv "" anywhere (answer 200 "[1, 2]"))
           (mkArgs false (Get "1") (Some "out.json")) no_files get1
           "out.json" (PList [PInt 1; PInt 2]));
    [ reflexivity | discriminate | reflexivity | reflexivity | reflexivity
    | intros u; apply build_url_of_list ].
Defined.

(** C9 as stated fails: the body [[1, 2]] is valid JSON without a
    [build.url], [--response-json out.json] is supplied, but the path
    cannot be opened for writing: the file is not written, and the run
    ends with the [IOError] instead of going on to the build URL. *)
Lemma capture_fails_on_unwritable_path :
  let env := mkEnv "" nowhere (answer 200 "[1, 2]") in
  let a := mkArgs true (Retry "7") (Some "out.json") in
  let r := request "PUT" (BUILDBUCKET_API_URL +++ "/7/retry") None in
  response_json a = Some "out.json"
  /\ loads (snd (http env r)) = Some (PList [PInt 1; PInt 2])
  /\ build_url_of (PList [PInt 1; PInt 2]) = Raise TypeError
  /\ run (R := py) env a no_files =
     (Uncaught IOError, mkProc no_files (trace_lines env r) [] [r])
  /\ files (snd (run (R := py) env a no_files)) "out.json" = None
  /\ exit_code (fst (run (R := py) env a no_files)) = 1.
Proof. repeat split; reflexivity. Qed.

End Witnesses.

(* ------------------------------------------------------------------ *)
(** * Further properties of [main] *)

Section Further.
Context {R : Runtime}.

(** X1: [--changes ''], [--properties ''] and [--response-json ''] behave
    as the option left out, whatever the other options are: the empty
    string is a value [argparse] hands over, and each of the three tests
    ([if args.changes:], [if args.properties:], [if args.response_json:])
    takes it for false, so that no file named by it is opened, read or
    written. *)
Theorem empty_options_are_absent env (verb : bool) B N chg pr c rj fs :
  run env (mkArgs verb (Put B (Some "") N pr) rj) fs =
  run env (mkArgs verb (Put B None N pr) rj) fs
  /\ run env (mkArgs verb (Put B chg N (Some "")) rj) fs =
     run env (mkArgs verb (Put B chg N None) rj) fs
  /\ run env (mkArgs verb c (Some "")) fs =
     run env (mkArgs verb c None) fs.
Proof. split; [reflexivity|split; reflexivity]. Qed.

(** ** The two loaders, case by case *)

Lemma load_changes_cases arg p :
  load_changes arg p =
  match arg with
  | Some path =>
      if truthy arg then
        match files p path with
        | None => (Raise IOError, p)
        | Some text =>
            match changes_of text with
            | Ok xs => (Ok xs, p)
            | Raise e => (Raise e, complained (invalid_list path) p)
            end
        end
      else (Ok [], p)
  | None => (Ok [], p)
  end.
Proof.
  unfold load_changes. destruct arg as [path|]; [|reflexivity].
  destruct (truthy (Some path)); [|reflexivity].
  unmonad. destruct (files p path) as [text|]; [|reflexivity].
  pose proof (changes_of_faults text) as T. unfold changes_of in *.
  destruct (load text) as [v|x]; simpl.
  - destruct (list_extend dict_order [] v) as [xs|e]; [reflexivity|].
    rewrite (T e eq_refl). reflexivity.
  - rewrite (T x eq_refl). reflexivity.
Qed.

Lemma load_properties_cases env arg p :
  load_properties env arg p =
  match arg with
  | Some path =>
      if truthy arg then
        match properties_text env p path with
        | None => (Raise IOError, p)
        | Some text =>
            match properties_of text with
            | Ok d => (Ok d, p)
            | Raise e => (Raise e, complained (invalid_dict path) p)
            end
        end
      else (Ok [], p)
  | None => (Ok [], p)
  end.
Proof.
  unfold load_properties, properties_text.
  destruct arg as [path|]; [|reflexivity].
  destruct (truthy (Some path)); [|reflexivity].
  unmonad.
  assert (G : forall text,
    match
      (let (r, p') := (match load text with
                       | Ok v => (dict_update dict_order [] v, p)
                       | Raise e => (Raise e, p)
                       end) in (r, p'))
    with
    | (Ok a, p') => (Ok a, p')
    | (Raise e, p') =>
        if type_or_value e
        then
          (let (r, p'0) :=
             (Ok tt, mkProc (files p') (stdout p')
                       (stderr p' ++
                        [path +++ " contained invalid JSON dict." +++ nl])
                       (sent p')) in
           match r with
           | Ok _ => (Raise e, p'0)
           | Raise e0 => (Raise e0, p'0)
           end)
        else (Raise e, p')
    end =
    match properties_of text with
    | Ok d => (Ok d, p)
    | Raise e => (Raise e, complained (invalid_dict path) p)
    end).
  { intros text. pose proof (properties_of_faults text) as T.
    unfold properties_of in *.
    destruct (load text) as [v|x]; simpl.
    - destruct (dict_update dict_order [] v) as [d|e]; [reflexivity|].
      rewrite (T e eq_refl). reflexivity.
    - rewrite (T x eq_refl). reflexivity. }
  destruct (String.eqb path "-"); simpl.
  - rewrite <- G. destruct (load (stdin env)); reflexivity.
  - destruct (files p path) as [text|]; [|reflexivity].
    rewrite <- G. destruct (load text); reflexivity.
Qed.

Lemma build_put_cases env b chg n pr p :
  build_request env (Put b chg n pr) p =
  match load_changes chg p with
  | (Raise e, p1) => (Raise e, p1)
  | (Ok xs, p1) => put_after_changes env b n pr xs p1
  end.
Proof.
  cbn [build_request]. unfold bind at 1.
  destruct (load_changes chg p) as [[xs|e] p1]; [|reflexivity].
  unfold put_after_changes, bind at 1.
  destruct (load_properties env pr p1) as [[ps|e] p2]; [|reflexivity].
  unfold encode_put, bind, dumps, parameters, put_body. unmonad.
  destruct (json_dumps _) as [s|]; [|reflexivity].
  destruct (json_dumps _) as [body|]; reflexivity.
Qed.

Lemma encode_put_pure b n xs ps p : snd (encode_put b n xs ps p) = p.
Proof.
  unfold encode_put. destruct (json_dumps _) as [s|]; [|reflexivity].
  destruct (json_dumps _) as [body|]; reflexivity.
Qed.

(** ** Missing input files *)

(** Changes that are accepted load without a trace. *)
Lemma load_changes_loadable fs chg :
  changes_loadable fs chg ->
  exists xs, load_changes chg (boot fs) = (Ok xs, boot fs).
Proof.
  intros [->|[->|(path & text & xs & -> & F & C)]];
    [exists []; reflexivity|exists []; reflexivity|].
  rewrite load_changes_cases. cbn [files boot]. rewrite F, C.
  destruct (truthy (Some path)); [exists xs|exists []]; reflexivity.
Qed.

(** X2: a non-empty [--changes] path that cannot be opened ends the run
    with an uncaught [IOError], whatever the properties option is; so
    does a non-empty [--properties] path other than [-] that cannot be
    opened, when the changes (read first) raise nothing: the option is
    absent or empty, or names a readable file whose content is accepted.
    In both cases neither complaint line is written (the handlers are
    for [TypeError] and [ValueError] alone), nothing is printed and no
    request is issued. *)
Theorem missing_input_file env (verb : bool) B N rj fs path :
  path <> EmptyString ->
  fs path = None ->
  (forall pr,
     run env (mkArgs verb (Put B (Some path) N pr) rj) fs =
     (Uncaught IOError, boot fs))
  /\ (path <> "-" ->
      forall chg, changes_loadable fs chg ->
        run env (mkArgs verb (Put B chg N (Some path)) rj) fs =
        (Uncaught IOError, boot fs)).
Proof.
  intros NE F. split.
  - intros pr. rewrite run_cases. cbn [command].
    rewrite build_put_cases, load_changes_cases, (truthy_nonempty _ NE).
    cbn [files boot]. rewrite F. reflexivity.
  - intros ND chg Hc. rewrite run_cases. cbn [command].
    destruct (load_changes_loadable _ _ Hc) as [xs C].
    rewrite build_put_cases, C. unfold put_after_changes.
    rewrite load_properties_cases, (truthy_nonempty _ NE).
    unfold properties_text.
    destruct (String.eqb_spec path "-") as [|_]; [contradiction|].
    cbn [files boot]. rewrite F. reflexivity.
Qed.

(** ** The decoration *)

(** X3: when the body of the answer decodes to a value with a
    [build.url], the line [Build: <url>] is printed after the trace,
    whatever the HTTP status, and the run still exits by the status. *)
Theorem build_line_whatever_status env a fs r v u :
  sent (snd (run env a fs)) = [r] ->
  json_loads (snd (http env r)) = Some v ->
  build_url_of v = Ok u ->
  (forall path, response_json a = Some path -> can_write env path = true) ->
  fst (run env a fs) = Exited (status_code (status (fst (http env r))))
  /\ stdout (snd (run env a fs)) =
     (if verbose a then trace_lines env r else [])
       ++ ["Build: " +++ py_str u].
Proof.
  intros H J U W. rewrite (run_after_exchange _ _ _ _ H).
  rewrite decorate_cases, J. unfold finish. rewrite U.
  destruct (response_json a) as [path|]; [|split; reflexivity].
  rewrite (W path eq_refl).
  destruct (truthy (Some path)); split; reflexivity.
Qed.

(** X4: a run writes to no file but the one [--response-json] names. *)
Theorem other_files_untouched env a fs q :
  response_json a <> Some q ->
  files (snd (run env a fs)) q = fs q.
Proof.
  intros N. rewrite run_cases.
  pose proof (build_request_frame env (command a) (boot fs)) as F.
  destruct (build_request env (command a) (boot fs)) as [[x|e] p1] eqn:E.
  - cbv zeta. rewrite decorate_cases.
    destruct (json_loads _) as [v|]; [|reflexivity].
    destruct (response_json a) as [path|] eqn:Hp.
    + destruct (truthy (Some path)).
      * destruct (can_write env path); [|reflexivity].
        pose proof (finish_ok v (written path (snd (http env (request_of x)))
                      (exchanged env (verbose a) (request_of x) (boot fs))))
          as O.
        pose proof (finish_files v (written path
                      (snd (http env (request_of x)))
                      (exchanged env (verbose a) (request_of x) (boot fs))))
          as G.
        destruct (finish v _) as [[[]|e] p3]; simpl in *; [|discriminate].
        rewrite G.
        destruct (String.eqb_spec q path) as [->|_]; [congruence|reflexivity].
      * pose proof (finish_ok v (exchanged env (verbose a) (request_of x)
                                   (boot fs))) as O.
        pose proof (finish_files v (exchanged env (verbose a) (request_of x)
                                      (boot fs))) as G.
        destruct (finish v _) as [[[]|e] p3]; simpl in *; [|discriminate].
        rewrite G. reflexivity.
    + pose proof (finish_ok v (exchanged env (verbose a) (request_of x)
                                 (boot fs))) as O.
      pose proof (finish_files v (exchanged env (verbose a) (request_of x)
                                    (boot fs))) as G.
      destruct (finish v _) as [[[]|e] p3]; simpl in *; [|discriminate].
      rewrite G. reflexivity.
  - simpl. destruct F as (F & _). simpl in F. rewrite F. reflexivity.
Qed.

(** ** Requests, exit status and the error stream *)

Lemma run_stderr_after_exchange env a fs r :
  sent (snd (run env a fs)) = [r] -> stderr (snd (run env a fs)) = [].
Proof.
  intros H. rewrite (run_after_exchange _ _ _ _ H).
  pose proof (decorate_stderr env a (snd (http env r))
                (exchanged env (verbose a) r (boot fs))) as D.
  destruct (decorate env a _ _) as [[[]|e] p3]; exact D.
Qed.

(** X5: once [parse_args] has returned (line 104; [-h] and usage errors
    end inside [argparse] and are no runs of [main]'s body), an exit
    status 0 means that exactly one request was issued, that it was
    answered with status 200, that [main] wrote neither complaint line,
    and that the process ended through [sys.exit(main(...))] and not
    through an exception. *)
Theorem exit_zero_means_success env a fs :
  exit_code (fst (run env a fs)) = 0 ->
  exists r,
    sent (snd (run env a fs)) = [r]
    /\ status (fst (http env r)) = 200
    /\ stderr (snd (run env a fs)) = []
    /\ fst (run env a fs) = Exited 0.
Proof.
  intros Z0.
  pose proof (run_sent env a fs) as S.
  destruct (build_request env (command a) (boot fs)) as [[x|e] p1] eqn:E.
  - exists (request_of x). split; [exact S|].
    pose proof (outcome_after_exchange env a fs _ S) as [O|[O _]].
    + rewrite O in Z0 |- *. unfold status_code in *. cbn [exit_code] in Z0.
      destruct (status (fst (http env (request_of x))) =? 200) eqn:Q;
        [|discriminate].
      apply Z.eqb_eq in Q.
      repeat split; [exact Q|exact (run_stderr_after_exchange _ _ _ _ S)].
    + rewrite O in Z0. discriminate.
  - exfalso. revert Z0. rewrite run_cases, E. discriminate.
Qed.

(** X6: once [parse_args] has returned (line 104; [-h] and usage errors
    end inside [argparse] and are no runs of [main]'s body), [main] issues
    at most one request; when [main] returns, so that the process ends
    through [sys.exit(main(...))], it has issued exactly one and the exit
    status is 0 or 1; when it has issued none, it ended with an exception
    raised while the request was assembled, and printed nothing. *)
Theorem one_request_at_most env a fs :
  (List.length (sent (snd (run env a fs))) <= 1)%nat
  /\ (forall c, fst (run env a fs) = Exited c ->
        (c = 0 \/ c = 1) /\ exists r, sent (snd (run env a fs)) = [r])
  /\ (sent (snd (run env a fs)) = [] ->
        exists e, fst (run env a fs) = Uncaught e
                  /\ stdout (snd (run env a fs)) = []).
Proof.
  pose proof (run_sent env a fs) as S.
  pose proof (build_request_frame env (command a) (boot fs)) as F.
  destruct (build_request env (command a) (boot fs)) as [[x|e] p1] eqn:E.
  - rewrite S. repeat split; try (simpl; lia); try discriminate.
    + revert H. rewrite (run_after_exchange _ _ _ _ S).
      destruct (decorate env a _ _) as [[[]|e] p3]; [|discriminate].
      intros [= <-]. destruct (_ =? 200); tauto.
    + eexists; reflexivity.
  - rewrite S. repeat split; try (simpl; lia).
    + revert H. rewrite run_cases, E. discriminate.
    + revert H. rewrite run_cases, E. discriminate.
    + intros _. exists e. rewrite run_cases, E. split; [reflexivity|].
      apply F.
Qed.

(** Assembling the request either leaves the process as it was, or fails
    on a malformed input after one complaint. *)
Lemma build_request_complaint env c p :
  snd (build_request env c p) = p
  \/ exists b chg n pr path e,
       c = Put b chg n pr
       /\ (e = TypeError \/ e = ValueError)
       /\ ((chg = Some path
            /\ build_request env c p =
               (Raise e, complained (invalid_list path) p))
           \/ (pr = Some path
               /\ build_request env c p =
                  (Raise e, complained (invalid_dict path) p))).
Proof.
  assert (T : forall e, type_or_value e = true ->
                        e = TypeError \/ e = ValueError)
    by (intros []; simpl; try discriminate; tauto).
  destruct c as [id|b chg n pr|id]; [left; reflexivity| |left; reflexivity].
  rewrite build_put_cases, load_changes_cases.
  assert (Q : forall xs,
    snd (put_after_changes env b n pr xs p) = p
    \/ exists path e,
         (e = TypeError \/ e = ValueError)
         /\ pr = Some path
         /\ put_after_changes env b n pr xs p =
            (Raise e, complained (invalid_dict path) p)).
  { intros xs. unfold put_after_changes. rewrite load_properties_cases.
    destruct pr as [path|]; [|left; apply encode_put_pure].
    destruct (truthy (Some path)); [|left; apply encode_put_pure].
    destruct (properties_text env p path) as [text|]; [|left; reflexivity].
    destruct (properties_of text) as [ps|e] eqn:P;
      [left; apply encode_put_pure|].
    right. exists path, e. split; [|split; reflexivity].
    apply T. exact (properties_of_faults _ _ P). }
  assert (Q' : forall xs chg',
    snd (put_after_changes env b n pr xs p) = p
    \/ exists b0 chg0 n0 pr0 path e,
         Put b chg' n pr = Put b0 chg0 n0 pr0
         /\ (e = TypeError \/ e = ValueError)
         /\ ((chg0 = Some path
              /\ put_after_changes env b n pr xs p =
                 (Raise e, complained (invalid_list path) p))
             \/ (pr0 = Some path
                 /\ put_after_changes env b n pr xs p =
                    (Raise e, complained (invalid_dict path) p)))).
  { intros xs chg'. destruct (Q xs) as [L|(path & e & Te & -> & E)];
      [left; exact L|].
    right. exists b, chg', n, (Some path), path, e.
    split; [reflexivity|]. split; [exact Te|]. right. split; [reflexivity|].
    exact E. }
  destruct chg as [path|]; [|apply (Q' [] None)].
  destruct (truthy (Some path)); [|apply (Q' [] (Some path))].
  destruct (files p path) as [text|]; [|left; reflexivity].
  destruct (changes_of text) as [xs|e] eqn:P;
    [apply (Q' xs (Some path))|].
  right. exists b, (Some path), n, pr, path, e.
  split; [reflexivity|]. split; [apply T; exact (changes_of_faults _ _ P)|].
  left. split; reflexivity.
Qed.

(** X7: the two [sys.stderr.write] calls (lines 118 and 132) are [main]'s
    only writes to the error stream, and at most one of them runs: if
    [main] has written anything there ([stderr] holds what [main] writes,
    not what [argparse] or the interpreter's traceback add), it is the one
    complaint about the changes file or about the properties source of a
    [put]; the run then has issued no request, printed nothing, and ends
    with the [TypeError] or [ValueError] raised again. *)
Theorem stderr_only_for_malformed_input env a fs :
  stderr (snd (run env a fs)) <> [] ->
  exists b chg n pr path e,
    command a = Put b chg n pr
    /\ (e = TypeError \/ e = ValueError)
    /\ ((chg = Some path
         /\ run env a fs =
            (Uncaught e, complained (invalid_list path) (boot fs)))
        \/ (pr = Some path
            /\ run env a fs =
               (Uncaught e, complained (invalid_dict path) (boot fs)))).
Proof.
  intros NE. rewrite run_cases in NE |- *.
  destruct (build_request_complaint env (command a) (boot fs))
    as [L|(b & chg & n & pr & path & e & C & Te & D)].
  - exfalso. apply NE.
    destruct (build_request env (command a) (boot fs)) as [[x|e] p1].
    + cbv zeta.
      pose proof (decorate_stderr env a (snd (http env (request_of x)))
                    (exchanged env (verbose a) (request_of x) (boot fs)))
        as D.
      destruct (decorate env a _ _) as [[[]|e] p3]; exact D.
    + simpl in L. subst p1. reflexivity.
  - exists b, chg, n, pr, path, e. split; [exact C|]. split; [exact Te|].
    destruct D as [[-> D]|[-> D]]; [left|right]; (split; [reflexivity|]);
      rewrite D; reflexivity.
Qed.

(** ** What a run depends on *)

Lemma build_request_env si cw cw' h h' c :
  build_request (mkEnv si cw h) c = build_request (mkEnv si cw' h') c.
Proof. destruct c; reflexivity. Qed.

(** X8: the request is settled before the exchange: whether one is
    issued, and which, is the same whatever the server answers, whether
    or not the response file can be written, and whatever [--verbose] and
    [--response-json] are. *)
Theorem request_settled_before_exchange
        si cw cw' h h' (verb verb' : bool) c rj rj' fs :
  sent (snd (run (mkEnv si cw h) (mkArgs verb c rj) fs)) =
  sent (snd (run (mkEnv si cw' h') (mkArgs verb' c rj') fs)).
Proof.
  rewrite !run_sent. cbn [command].
  rewrite (build_request_env si cw cw' h h'). reflexivity.
Qed.

Lemma build_request_no_stdin si si' cw h c :
  reads_stdin c = false ->
  build_request (mkEnv si cw h) c = build_request (mkEnv si' cw h) c.
Proof.
  destruct c as [id|b chg n pr|id]; try reflexivity.
  cbn [reads_stdin build_request]. intros D.
  assert (L : load_properties (mkEnv si cw h) pr =
              load_properties (mkEnv si' cw h) pr).
  { unfold load_properties. destruct pr as [path|]; [|reflexivity].
    rewrite D. reflexivity. }
  rewrite L. reflexivity.
Qed.

(** X9: standard input is consulted by [put --properties -] and by nothing
    else: for every other invocation the run is the same whatever standard
    input holds. *)
Theorem stdin_read_for_dash_only si si' cw h a fs :
  reads_stdin (command a) = false ->
  run (mkEnv si cw h) a fs = run (mkEnv si' cw h) a fs.
Proof.
  intros D. rewrite !run_cases.
  rewrite (build_request_no_stdin si si' cw h _ D).
  destruct (build_request (mkEnv si' cw h) (command a) (boot fs))
    as [[x|e] p1]; [|reflexivity].
  cbv zeta. rewrite !decorate_cases. reflexivity.
Qed.

Lemma finish_same_but_files v p q :
  same_but_files p q ->
  fst (finish v q) = fst (finish v p)
  /\ same_but_files (snd (finish v p)) (snd (finish v q)).
Proof.
  unfold finish, same_but_files, printed. intros (O & E & S).
  destruct (build_url_of v); simpl; rewrite ?O; repeat split; assumption.
Qed.

Lemma decorate_same_but_files env a content p q :
  same_but_files p q ->
  fst (decorate env a content q) = fst (decorate env a content p)
  /\ same_but_files (snd (decorate env a content p))
                    (snd (decorate env a content q)).
Proof.
  intros H. rewrite !decorate_cases.
  destruct (json_loads content) as [v|]; [|split; [reflexivity|exact H]].
  destruct (response_json a) as [path|];
    [|apply finish_same_but_files; exact H].
  destruct (truthy (Some path)); [|apply finish_same_but_files; exact H].
  destruct (can_write env path); [|split; [reflexivity|exact H]].
  apply finish_same_but_files. exact H.
Qed.

Lemma encode_put_same_but_files b n xs ps p q :
  same_but_files p q ->
  fst (encode_put b n xs ps q) = fst (encode_put b n xs ps p)
  /\ same_but_files (snd (encode_put b n xs ps p))
                    (snd (encode_put b n xs ps q)).
Proof.
  intros H. rewrite !encode_put_pure. split; [|exact H].
  unfold encode_put. destruct (json_dumps _) as [s|]; [|reflexivity].
  destruct (json_dumps _) as [body|]; reflexivity.
Qed.

Lemma build_request_same_but_files env c p q :
  reads_files c = false ->
  same_but_files p q ->
  fst (build_request env c q) = fst (build_request env c p)
  /\ same_but_files (snd (build_request env c p))
                    (snd (build_request env c q)).
Proof.
  intros H S.
  destruct c as [id|b chg n pr|id]; try (split; [reflexivity|exact S]).
  cbn [reads_files] in H. apply orb_false_elim in H as [Hc Hp].
  rewrite !build_put_cases, !load_changes_cases, Hc.
  assert (C : forall p0 : Proc,
             (match chg with
              | Some _ => (Ok [], p0)
              | None => (Ok [], p0)
              end : result (list pyval) * Proc) = (Ok [], p0))
    by (intros p0; destruct chg; reflexivity).
  rewrite !C. unfold put_after_changes. rewrite !load_properties_cases.
  destruct pr as [path|]; [|apply encode_put_same_but_files; exact S].
  destruct (truthy (Some path)) eqn:T;
    [|apply encode_put_same_but_files; exact S].
  cbn [andb] in Hp. apply negb_false_iff in Hp.
  unfold properties_text. rewrite Hp.
  destruct (properties_of (stdin env)) as [ps|e];
    [apply encode_put_same_but_files; exact S|].
  split; [reflexivity|].
  destruct S as (O & E & N). unfold same_but_files, complained. simpl.
  rewrite O, E, N. repeat split.
Qed.

(** X10: files are opened for reading only for a non-empty [--changes]
    path and for a non-empty [--properties] path other than [-]: for every
    other invocation ([get], [retry], [put] without those) two runs in
    the same environment (standard input, server, and the paths that can
    be opened for writing) end the same way, with the same request and
    the same lines on both streams, whichever files exist for reading
    and whatever they hold. *)
Theorem files_read_for_paths_only env a fs fs' :
  reads_files (command a) = false ->
  fst (run env a fs') = fst (run env a fs)
  /\ same_but_files (snd (run env a fs)) (snd (run env a fs')).
Proof.
  intros H. rewrite !run_cases.
  assert (S0 : same_but_files (boot fs) (boot fs'))
    by (repeat split).
  destruct (build_request_same_but_files env _ _ _ H S0) as (F & S).
  destruct (build_request env (command a) (boot fs)) as [[x|e] p1];
    destruct (build_request env (command a) (boot fs')) as [[x'|e'] q1];
    simpl in F; try discriminate.
  - injection F as ->. cbv zeta.
    assert (S1 : same_but_files
                   (exchanged env (verbose a) (request_of x) (boot fs))
                   (exchanged env (verbose a) (request_of x) (boot fs')))
      by (repeat split).
    destruct (decorate_same_but_files env a
                (snd (http env (request_of x))) _ _ S1) as (D & S2).
    destruct (decorate env a _ (exchanged env (verbose a) (request_of x)
                                          (boot fs))) as [[[]|e1] p3];
      destruct (decorate env a _ (exchanged env (verbose a) (request_of x)
                                            (boot fs'))) as [[[]|e2] p4];
      simpl in D; try discriminate; simpl.
    + split; [reflexivity|exact S2].
    + injection D as ->. split; [reflexivity|exact S2].
  - injection F as ->. split; [reflexivity|exact S].
Qed.

(** ** Malformed inputs, by what the file holds *)

Lemma changes_of_invalid text :
  json_loads text = None -> changes_of text = Raise ValueError.
Proof. unfold changes_of, load. intros ->. reflexivity. Qed.

Lemma changes_of_scalar text v :
  json_loads text = Some v -> scalar v = true ->
  changes_of text = Raise TypeError.
Proof.
  unfold changes_of, load. intros -> S. destruct v; try discriminate;
    reflexivity.
Qed.

Lemma properties_of_invalid text :
  json_loads text = None -> properties_of text = Raise ValueError.
Proof. unfold properties_of, load. intros ->. reflexivity. Qed.

Lemma properties_of_scalar text v :
  json_loads text = Some v -> scalar v = true ->
  properties_of text = Raise TypeError.
Proof.
  unfold properties_of, load. intros -> S. destruct v; try discriminate;
    reflexivity.
Qed.

(** X11: a changes file that is not valid JSON, or that holds [null], a
    boolean or a number, ends the run before the properties are looked at:
    the one line [<path> contained invalid JSON list.] goes to the error
    stream, the [ValueError] (resp. [TypeError]) is raised again, nothing is
    printed and no request is issued. *)
Theorem malformed_changes_abort env (verb : bool) B path N pr rj fs text :
  path <> EmptyString ->
  fs path = Some text ->
  (json_loads text = None ->
   run env (mkArgs verb (Put B (Some path) N pr) rj) fs =
   (Uncaught ValueError, complained (invalid_list path) (boot fs)))
  /\ (forall v, json_loads text = Some v -> scalar v = true ->
      run env (mkArgs verb (Put B (Some path) N pr) rj) fs =
      (Uncaught TypeError, complained (invalid_list path) (boot fs))).
Proof.
  intros NE F.
  assert (G : forall e, changes_of text = Raise e ->
    run env (mkArgs verb (Put B (Some path) N pr) rj) fs =
    (Uncaught e, complained (invalid_list path) (boot fs))).
  { intros e C. rewrite run_cases. cbn [command].
    rewrite build_put_cases, load_changes_cases, (truthy_nonempty _ NE).
    cbn [files boot]. rewrite F, C. reflexivity. }
  split.
  - intros J. apply G, changes_of_invalid, J.
  - intros v J S. apply G. exact (changes_of_scalar _ _ J S).
Qed.

(** X12: with no changes file, a properties source (a file, or standard
    input for [-]) that is not valid JSON, or that holds [null], a boolean or
    a number, ends the run likewise: the one line
    [<path> contained invalid JSON dict.] on the error stream, the fault
    raised again, no request. *)
Theorem malformed_properties_abort env (verb : bool) B chg N path rj fs text :
  truthy chg = false ->
  path <> EmptyString ->
  properties_text env (boot fs) path = Some text ->
  (json_loads text = None ->
   run env (mkArgs verb (Put B chg N (Some path)) rj) fs =
   (Uncaught ValueError, complained (invalid_dict path) (boot fs)))
  /\ (forall v, json_loads text = Some v -> scalar v = true ->
      run env (mkArgs verb (Put B chg N (Some path)) rj) fs =
      (Uncaught TypeError, complained (invalid_dict path) (boot fs))).
Proof.
  intros Hc NE F.
  assert (G : forall e, properties_of text = Raise e ->
    run env (mkArgs verb (Put B chg N (Some path)) rj) fs =
    (Uncaught e, complained (invalid_dict path) (boot fs))).
  { intros e C. rewrite run_cases. cbn [command].
    rewrite build_put_cases, load_changes_cases, Hc.
    assert (E : (match chg with
                 | Some _ => (Ok [], boot fs)
                 | None => (Ok [], boot fs)
                 end : result (list pyval) * Proc) = (Ok [], boot fs))
      by (destruct chg; reflexivity).
    rewrite E. unfold put_after_changes.
    rewrite load_properties_cases, (truthy_nonempty _ NE), F, C.
    reflexivity. }
  split.
  - intros J. apply G, properties_of_invalid, J.
  - intros v J S. apply G. exact (properties_of_scalar _ _ J S).
Qed.

End Further.

Section FurtherWitnesses.
Import Json Fixtures.

(** X2 at a [--properties] path that names no file, first without
    changes, then after a changes file that holds a list. *)
Lemma missing_input_file_witness :
  let env := mkEnv "" anywhere (answer 200 "{}") in
  let fs := file "c.json" "[1]" in
  run (R := py) env (mkArgs true (Put "B" (Some "p.json") "N" None) None) fs
  = (Uncaught IOError, boot fs)
  /\ run (R := py) env
         (mkArgs true (Put "B" (Some "c.json") "N" (Some "p.json")) None) fs
     = (Uncaught IOError, boot fs).
Proof.
  pose proof (missing_input_file (R := py)
                (mkEnv "" anywhere (answer 200 "{}")) true "B" "N" None
                (file "c.json" "[1]") "p.json"
                ltac:(discriminate) eq_refl) as [C P].
  split; [apply C|].
  apply P; [discriminate|].
  right; right. exists "c.json", "[1]", [PInt 1].
  repeat split; reflexivity.
Defined.

(** X3 at status 404 with a body that carries a build URL. *)
Lemma build_line_whatever_status_witness :
  let env := mkEnv "" anywhere
                   (answer 404 (qq "{'build':{'url':'http://x/1'}}")) in
  let a := mkArgs false (Get "1") None in
  fst (run (R := py) env a no_files) = Exited 1
  /\ stdout (snd (run (R := py) env a no_files)) = ["Build: http://x/1"].
Proof.
  apply (build_line_whatever_status (R := py)
           (mkEnv "" anywhere
                  (answer 404 (qq "{'build':{'url':'http://x/1'}}")))
           (mkArgs false (Get "1") None) no_files get1
           (PDict [(KStr "build", PDict [(KStr "url", PStr "http://x/1")])])
           (PStr "http://x/1"));
    try reflexivity; discriminate.
Defined.

(** X4 at a file that is not the response file. *)
Lemma other_files_untouched_witness :
  files (snd (run (R := py) (mkEnv "" anywhere (answer 200 "{}"))
                  (mkArgs false (Get "1") (Some "out.json"))
                  (file "notes.txt" "keep")))
        "notes.txt"
  = Some "keep".
Proof.
  apply (other_files_untouched (R := py)
           (mkEnv "" anywhere (answer 200 "{}"))
           (mkArgs false (Get "1") (Some "out.json"))
           (file "notes.txt" "keep") "notes.txt").
  discriminate.
Defined.

(** X5 at a [get] answered with status 200. *)
Lemma exit_zero_means_success_witness :
  let env := mkEnv "" anywhere (answer 200 "{}") in
  let a := mkArgs false (Get "1") None in
  exists r,
    sent (snd (run (R := py) env a no_files)) = [r]
    /\ status (fst (http env r)) = 200
    /\ stderr (snd (run (R := py) env a no_files)) = []
    /\ fst (run (R := py) env a no_files) = Exited 0.
Proof.
  apply (exit_zero_means_success (R := py)
           (mkEnv "" anywhere (answer 200 "{}"))
           (mkArgs false (Get "1") None) no_files).
  reflexivity.
Defined.

(** X7 at a properties source that holds a number. *)
Lemma stderr_only_for_malformed_input_witness :
  let env := mkEnv "5" anywhere (answer 200 "{}") in
  let a := mkArgs false (Put "B" None "N" (Some "-")) None in
  exists b chg n pr path e,
    command a = Put b chg n pr
    /\ (e = TypeError \/ e = ValueError)
    /\ ((chg = Some path
         /\ run (R := py) env a no_files =
            (Uncaught e, complained (invalid_list path) (boot no_files)))
        \/ (pr = Some path
            /\ run (R := py) env a no_files =
               (Uncaught e, complained (invalid_dict path) (boot no_files)))).
Proof.
  apply (stderr_only_for_malformed_input (R := py)
           (mkEnv "5" anywhere (answer 200 "{}"))
           (mkArgs false (Put "B" None "N" (Some "-")) None) no_files).
  discriminate.
Defined.

(** X9 at a [put] that takes its properties from a file. *)
Lemma stdin_read_for_dash_only_witness :
  let a := mkArgs false (Put "B" None "N" (Some "p.json")) None in
  run (R := py) (mkEnv "{}" anywhere (answer 200 "{}")) a (file "p.json" "{}")
  = run (R := py) (mkEnv "[" anywhere (answer 200 "{}")) a
        (file "p.json" "{}").
Proof.
  apply (stdin_read_for_dash_only (R := py) "{}" "[" anywhere
           (answer 200 "{}")
           (mkArgs false (Put "B" None "N" (Some "p.json")) None)
           (file "p.json" "{}")).
  reflexivity.
Defined.

(** X10 at a [put] that takes its properties from standard input, over a
    file system that holds a file named [-]. *)
Lemma files_read_for_paths_only_witness :
  let env := mkEnv "{}" anywhere (answer 200 "{}") in
  let a := mkArgs false (Put "B" None "N" (Some "-")) None in
  fst (run (R := py) env a (file "-" "[")) = fst (run (R := py) env a no_files)
  /\ same_but_files (snd (run (R := py) env a no_files))
                    (snd (run (R := py) env a (file "-" "["))).
Proof.
  apply (files_read_for_paths_only (R := py)
           (mkEnv "{}" anywhere (answer 200 "{}"))
           (mkArgs false (Put "B" None "N" (Some "-")) None)
           no_files (file "-" "[")).
  reflexivity.
Defined.

(** X11 at a changes file that holds a number. *)
Lemma malformed_changes_abort_witness :
  let env := mkEnv "" anywhere (answer 200 "{}") in
  run (R := py) env (mkArgs false (Put "B" (Some "c.json") "N" None) None)
      (file "c.json" "5")
  = (Uncaught TypeError,
     complained (invalid_list "c.json") (boot (file "c.json" "5"))).
Proof.
  apply (proj2 (malformed_changes_abort (R := py)
                  (mkEnv "" anywhere (answer 200 "{}")) false "B" "c.json"
                  "N" None None (file "c.json" "5") "5"
                  ltac:(discriminate) eq_refl) (PInt 5));
    reflexivity.
Defined.

(** X12 at properties on standard input that are not JSON. *)
Lemma malformed_properties_abort_witness :
  let env := mkEnv "{" anywhere (answer 200 "{}") in
  run (R := py) env (mkArgs false (Put "B" None "N" (Some "-")) None) no_files
  = (Uncaught ValueError, complained (invalid_dict "-") (boot no_files)).
Proof.
  apply (proj1 (malformed_properties_abort (R := py)
                  (mkEnv "{" anywhere (answer 200 "{}")) false "B" None
                  "N" "-" None no_files "{"
                  eq_refl ltac:(discriminate) eq_refl));
    reflexivity.
Defined.

End FurtherWitnesses.

(* ------------------------------------------------------------------ *)
(** * The concrete JSON library: decoding what was encoded *)

Section Numbers.
Import Json.

Lemma scan_digits_step acc c s k :
  digit c = Some k ->
  scan_digits acc (String c s) = scan_digits (10 * acc + k) s.
Proof. intros H. cbn [scan_digits]. rewrite H. reflexivity. Qed.

Lemma scan_digits_uval (d : Decimal.uint) : forall acc rest,
  match rest with
  | EmptyString => True
  | String c _ => digit c = None
  end ->
  scan_digits acc (NilEmpty.string_of_uint d +++ rest) = (uval acc d, rest).
Proof.
  induction d; intros acc rest H; cbn [NilEmpty.string_of_uint uval];
    try (cbn [String.append];
         erewrite scan_digits_step by reflexivity; apply IHd; exact H).
  cbn [String.append]. destruct rest as [|c r]; [reflexivity|].
  cbn [scan_digits]. rewrite H. reflexivity.
Qed.

(** The value accumulated from a positive start is the positive number the
    library reads. *)
Lemma uval_pos (d : Decimal.uint) : forall acc : positive,
  uval (Z.pos acc) d = Z.pos (Pos.of_uint_acc d acc).
Proof.
  induction d; intros acc; cbn [uval Pos.of_uint_acc]; try reflexivity;
    rewrite <- IHd; f_equal; lia.
Qed.

Lemma uval_zero (d : Decimal.uint) : uval 0 d = Z.of_N (Pos.of_uint d).
Proof.
  induction d; cbn [uval Pos.of_uint]; try reflexivity; try exact IHd;
    cbn [Z.of_N]; rewrite <- uval_pos; reflexivity.
Qed.

Lemma uval_to_uint (p : positive) : uval 0 (Pos.to_uint p) = Z.pos p.
Proof. rewrite uval_zero, Unsigned.of_to. reflexivity. Qed.

Lemma unorm_D0 (l l' : Decimal.uint) :
  Decimal.unorm l = Decimal.D0 l' -> l' = Decimal.Nil.
Proof.
  induction l; cbn [Decimal.unorm]; try discriminate; try exact IHl.
  intros [= <-]. reflexivity.
Qed.

(** The numeral of a positive number does not start with the digit 0. *)
Lemma to_uint_no_leading_zero (p : positive) (l : Decimal.uint) :
  Pos.to_uint p <> Decimal.D0 l.
Proof.
  intros E.
  pose proof (Unsigned.to_of (Pos.to_uint p)) as T.
  rewrite Unsigned.of_to in T. cbn [N.to_uint] in T.
  rewrite E in T. symmetry in T. apply unorm_D0 in T. subst l.
  exact (Unsigned.to_uint_nonzero p E).
Qed.

Lemma delim_follow rest :
  delim rest = true ->
  match rest with
  | EmptyString => True
  | String c _ => digit c = None
  end
  /\ float_tail rest = false
  /\ skip_ws rest = rest.
Proof.
  destruct rest as [|c r]; [intros _; repeat split|].
  cbn [delim]. intros H.
  apply orb_true_iff in H as [H|H];
    [apply orb_true_iff in H as [H|H]|];
    apply Ascii.eqb_eq in H; subst c; repeat split.
Qed.

(** A text that starts with a digit or a minus sign is read as a number. *)
Lemma value_body_number pe pm c r :
  digit c <> None \/ c = "-"%char ->
  value_body pe pm (String c r) = scan_number (String c r).
Proof.
  destruct c as [b0 b1 b2 b3 b4 b5 b6 b7].
  destruct b0, b1, b2, b3, b4, b5, b6, b7;
    try reflexivity;
    intros [H|H]; try discriminate H; exfalso; apply H; reflexivity.
Qed.

Lemma scan_nat_pos (p : positive) rest :
  delim rest = true ->
  exists c r,
    NilZero.string_of_uint (Pos.to_uint p) +++ rest = String c r
    /\ digit c <> None
    /\ scan_nat (String c r) = Some (Z.pos p, rest).
Proof.
  intros D. destruct (delim_follow _ D) as (F & T & _).
  pose proof (uval_to_uint p) as U.
  pose proof (to_uint_no_leading_zero p) as Z0.
  pose proof (Unsigned.to_uint_nonnil p) as NN.
  destruct (Pos.to_uint p) as [|l|l|l|l|l|l|l|l|l|l];
    [contradiction NN; reflexivity | destruct (Z0 l eq_refl) | ..];
    cbn [NilZero.string_of_uint NilEmpty.string_of_uint String.append];
    eexists; eexists; (split; [reflexivity|]); (split; [discriminate|]);
    cbn [uval] in U; unfold scan_nat;
    match goal with
    | |- context [digit ?c] =>
        let k := eval vm_compute in (digit c) in
        change (digit c) with k; cbv iota beta
    end;
    rewrite (scan_digits_uval l _ rest F); cbv iota beta;
    rewrite T; rewrite <- U; reflexivity.
Qed.

(** The decoder reads back the numeral of an integer. *)
Lemma parse_value_int f (z : Z) rest :
  delim rest = true ->
  parse_value (S f) (Script.str_of_Z z +++ rest) = Some (PInt z, rest).
Proof.
  intros D. rewrite parse_value_S. unfold Script.str_of_Z.
  destruct z as [|p|p].
  - destruct (delim_follow _ D) as (_ & T & _).
    change (NilZero.string_of_int (Z.to_int 0)) with "0".
    cbn [String.append].
    rewrite value_body_number by (left; discriminate).
    unfold scan_number, scan_nat.
    change (digit "0") with (Some 0). cbv iota beta. rewrite T. reflexivity.
  - cbn [Z.to_int NilZero.string_of_int].
    destruct (scan_nat_pos p rest D) as (c & r & E & Dc & S).
    rewrite E, value_body_number by (left; exact Dc).
    unfold scan_number.
    destruct (Ascii.eqb_spec c "-") as [->|NE];
      [contradiction Dc; reflexivity|].
    assert (G : match String c r with
                | String "-" r0 =>
                    match scan_nat r0 with
                    | Some (n, r') => Some (PInt (- n), r')
                    | None => None
                    end
                | _ =>
                    match scan_nat (String c r) with
                    | Some (n, r') => Some (PInt n, r')
                    | None => None
                    end
                end = match scan_nat (String c r) with
                      | Some (n, r') => Some (PInt n, r')
                      | None => None
                      end).
    { destruct c as [[] [] [] [] [] [] [] []]; try reflexivity.
      contradiction NE; reflexivity. }
    rewrite G, S. reflexivity.
  - cbn [Z.to_int NilZero.string_of_int].
    destruct (scan_nat_pos p rest D) as (c & r & E & Dc & S).
    cbn [String.append].
    rewrite value_body_number by (right; reflexivity).
    unfold scan_number. rewrite E, S. reflexivity.
Qed.

End Numbers.

Section DictFacts.
Import Json.
Variable ord : list pykey -> list pykey.
Hypothesis ord_perm : forall ks, Permutation (ord ks) ks.

Lemma key_eqb_refl k : key_eqb k k = true.
Proof.
  destruct k as [s|z|b|]; simpl;
    [apply String.eqb_refl|apply Z.eqb_refl|destruct b; reflexivity
    |reflexivity].
Qed.

Lemma key_eqb_KStr k s : key_eqb k (KStr s) = true -> k = KStr s.
Proof.
  destruct k as [t|z|b|]; simpl; try discriminate.
  intros H. apply String.eqb_eq in H. now subst.
Qed.

Lemma key_eqb_KStr_neq k s : k <> KStr s -> key_eqb k (KStr s) = false.
Proof.
  intros N. destruct (key_eqb k (KStr s)) eqn:E; [|reflexivity].
  destruct N. exact (key_eqb_KStr _ _ E).
Qed.

Lemma dict_get_map (f : pyval -> pyval) d k :
  dict_get (map (fun kv => let '(k0, x) := kv in (k0, f x)) d) k =
  option_map f (dict_get d k).
Proof.
  induction d as [|[k0 x] d IH]; [reflexivity|].
  cbn [map dict_get]. destruct (key_eqb k0 k); [reflexivity|exact IH].
Qed.

Lemma assoc_map (g : pyval -> string) d k :
  assoc k (map (fun kv => let '(k0, x) := kv in (k0, g x)) d) =
  option_map g (dict_get d k).
Proof.
  induction d as [|[k0 x] d IH]; [reflexivity|].
  cbn [map assoc dict_get]. destruct (key_eqb k0 k); [reflexivity|exact IH].
Qed.

Lemma map_fst_map {B} (f : pyval -> B) (d : list (pykey * pyval)) :
  map fst (map (fun kv => let '(k0, x) := kv in (k0, f x)) d) = map fst d.
Proof.
  induction d as [|[k0 x] d IH]; [reflexivity|]. cbn [map fst]. now rewrite IH.
Qed.

(** The member texts come in the order of the items. *)
Lemma members_items (g : pyval -> string) d :
  members ord (map (fun kv => let '(k0, x) := kv in (k0, g x)) d) =
  map (fun kv => enc_key (fst kv) +++ ": " +++ g (snd kv)) (dict_items ord d).
Proof.
  unfold members, dict_items. rewrite map_fst_map.
  induction (ord (map fst d)) as [|k ks IH]; [reflexivity|].
  cbn [flat_map]. rewrite map_app, <- IH, assoc_map.
  destruct (dict_get d k); reflexivity.
Qed.

Lemma dict_items_map (f : pyval -> pyval) d :
  dict_items ord (map (fun kv => let '(k0, x) := kv in (k0, f x)) d) =
  map (fun kv => (fst kv, f (snd kv))) (dict_items ord d).
Proof.
  unfold dict_items. rewrite map_fst_map.
  induction (ord (map fst d)) as [|k ks IH]; [reflexivity|].
  cbn [flat_map]. rewrite map_app, <- IH, dict_get_map.
  destruct (dict_get d k); reflexivity.
Qed.

Lemma dict_set_fresh acc k v :
  (forall k', In k' (map fst acc) -> key_eqb k' k = false) ->
  dict_set acc k v = acc ++ [(k, v)].
Proof.
  induction acc as [|[k0 x] acc IH]; intros F; [reflexivity|].
  cbn [dict_set]. rewrite (F k0 (or_introl eq_refl)).
  cbn [app]. f_equal. apply IH. intros k' I. apply F. right. exact I.
Qed.

Lemma dict_get_In d s v :
  dict_get d (KStr s) = Some v -> In (KStr s, v) d.
Proof.
  induction d as [|[k0 x] d IH]; [discriminate|].
  cbn [dict_get]. destruct (key_eqb k0 (KStr s)) eqn:E.
  - intros [= ->]. apply key_eqb_KStr in E. subst. left. reflexivity.
  - intros H. right. exact (IH H).
Qed.

Lemma dict_get_key d k :
  In k (map fst d) -> dict_get d k <> None.
Proof.
  induction d as [|[k0 x] d IH]; [intros []|].
  cbn [map fst dict_get In]. intros [->|I].
  - rewrite key_eqb_refl. discriminate.
  - destruct (key_eqb k0 k); [discriminate|exact (IH I)].
Qed.

(** The items of a dictionary, one per key in iteration order. *)
Lemma dict_items_keys d : map fst (dict_items ord d) = ord (map fst d).
Proof.
  unfold dict_items.
  assert (I : forall k, In k (ord (map fst d)) -> In k (map fst d))
    by (intros k; apply Permutation_in, ord_perm).
  induction (ord (map fst d)) as [|k ks IH]; [reflexivity|].
  cbn [flat_map]. rewrite map_app, IH by (intros k' H; apply I; right; exact H).
  pose proof (dict_get_key d k (I k (or_introl eq_refl))) as G.
  destruct (dict_get d k); [reflexivity|contradiction].
Qed.

Lemma dict_items_In d s v :
  In (KStr s, v) (dict_items ord d) -> In (KStr s, v) d.
Proof.
  unfold dict_items. intros H. apply in_flat_map in H as (k & _ & H).
  destruct (dict_get d k) as [x|] eqn:G; [|destruct H].
  destruct H as [[= -> ->]|[]]. exact (dict_get_In _ _ _ G).
Qed.

Lemma flat_map_ext_In {A B} (f g : A -> list B) (l : list A) :
  (forall a, In a l -> f a = g a) -> flat_map f l = flat_map g l.
Proof.
  induction l as [|a l IH]; intros H; [reflexivity|].
  cbn [flat_map]. rewrite (H a (or_introl eq_refl)), IH; [reflexivity|].
  intros b I. apply H. right. exact I.
Qed.

Lemma distinct_pick d :
  distinct (map fst d) = true ->
  flat_map (fun k => match dict_get d k with
                     | Some v => [(k, v)]
                     | None => []
                     end) (map fst d) = d.
Proof.
  induction d as [|[k0 x] d IH]; [reflexivity|].
  cbn [map fst distinct]. intros H. apply andb_prop in H as [F D].
  cbn [flat_map dict_get]. rewrite key_eqb_refl. cbn [app]. f_equal.
  rewrite <- (IH D) at 2. apply flat_map_ext_In.
  intros k I. rewrite forallb_forall in F. specialize (F k I).
  apply negb_true_iff in F. rewrite F. reflexivity.
Qed.

(** Iterating over a proper dictionary gives its items, reordered. *)
Lemma dict_items_perm d :
  distinct (map fst d) = true -> Permutation (dict_items ord d) d.
Proof.
  intros D. rewrite <- (distinct_pick d D) at 2.
  unfold dict_items. apply Permutation_flat_map, ord_perm.
Qed.

End DictFacts.

Section Roundtrip.
Import Json.
Variable ord : list pykey -> list pykey.
Hypothesis ord_perm : forall ks, Permutation (ord ks) ks.

(** Induction on values, through lists and dictionaries. *)
Lemma pyval_induction (P : pyval -> Prop) :
  P PNone ->
  (forall b, P (PBool b)) ->
  (forall z, P (PInt z)) ->
  (forall s, P (PStr s)) ->
  (forall l, Forall P l -> P (PList l)) ->
  (forall d, Forall (fun kv => P (snd kv)) d -> P (PDict d)) ->
  forall v, P v.
Proof.
  intros HN HB HZ HS HL HD.
  fix IH 1. intros [| b | z | s | l | d].
  - exact HN.
  - apply HB.
  - apply HZ.
  - apply HS.
  - apply HL. induction l as [|x l IHl]; constructor; [apply IH|exact IHl].
  - apply HD. induction d as [|[k x] d IHd]; constructor;
      [apply IH|exact IHd].
Qed.

Lemma digit_head c :
  digit c <> None \/ c = "-"%char ->
  is_ws c = false /\ (c =? "]")%char = false /\ (c =? "}")%char = false.
Proof.
  destruct c as [b0 b1 b2 b3 b4 b5 b6 b7].
  destruct b0, b1, b2, b3, b4, b5, b6, b7;
    try (intros _; repeat split; reflexivity);
    intros [H|H]; try discriminate H; exfalso; apply H; reflexivity.
Qed.

Lemma str_of_Z_head z :
  exists c r, Script.str_of_Z z = String c r
              /\ (digit c <> None \/ c = "-"%char).
Proof.
  unfold Script.str_of_Z. destruct z as [|p|p].
  - exists "0"%char, EmptyString. split; [reflexivity|left; discriminate].
  - cbn [Z.to_int NilZero.string_of_int].
    destruct (scan_nat_pos p EmptyString eq_refl) as (c & r & E & D & _).
    rewrite append_nil_r in E. exists c, r. split; [exact E|left; exact D].
  - cbn [Z.to_int NilZero.string_of_int]. eexists; eexists.
    split; [reflexivity|right; reflexivity].
Qed.

(** An encoded value starts with a character that is neither a blank nor a
    closing bracket. *)
Lemma enc_head v :
  exists c r, enc ord v = String c r
              /\ is_ws c = false
              /\ (c =? "]")%char = false /\ (c =? "}")%char = false.
Proof.
  destruct v as [| [|] | z | s | l | d];
    try (eexists; eexists; split; [reflexivity|repeat split; reflexivity]).
  cbn [enc]. destruct (str_of_Z_head z) as (c & r & E & H).
  exists c, r. split; [exact E|]. exact (digit_head c H).
Qed.

Lemma skip_ws_enc v tail : skip_ws (enc ord v +++ tail) = enc ord v +++ tail.
Proof.
  destruct (enc_head v) as (c & r & E & W & _). rewrite E.
  cbn [String.append skip_ws]. rewrite W. reflexivity.
Qed.

Lemma concat_enc_head (l : list pyval) tail :
  l <> [] ->
  skip_ws (String.concat ", " (map (enc ord) l) +++ tail) =
  String.concat ", " (map (enc ord) l) +++ tail.
Proof.
  destruct l as [|x [|y l]]; [contradiction| |]; intros _;
    cbn [map String.concat].
  - apply skip_ws_enc.
  - rewrite append_assoc. apply skip_ws_enc.
Qed.

(** The elements of a list, from the first to the closing bracket. *)
Lemma parse_elems_concat (l : list pyval) :
  l <> [] ->
  Forall (reads_back ord) l ->
  forall acc rest,
  exists n,
    parse_elems n (String.concat ", " (map (enc ord) l) +++ "]" +++ rest) acc
    = Some (PList (acc ++ map (canon ord) l), rest).
Proof.
  induction l as [|x l IH]; [contradiction|].
  intros _ F acc rest. inversion F as [|? ? Px Fl]; subst.
  destruct l as [|y l'].
  - cbn [map String.concat].
    destruct (Px ("]" +++ rest) eq_refl) as [n1 H1].
    exists (S n1). rewrite parse_elems_S. unfold elems_body. rewrite H1.
    reflexivity.
  - destruct (IH ltac:(discriminate) Fl (acc ++ [canon ord x]) rest)
      as [n2 H2].
    remember (y :: l') as l2 eqn:E2.
    assert (NE : l2 <> []) by (subst; discriminate).
    cbn [map].
    assert (C : String.concat ", " (enc ord x :: map (enc ord) l2) =
                enc ord x +++ ", " +++ String.concat ", " (map (enc ord) l2))
      by (subst l2; reflexivity).
    rewrite C, !append_assoc. cbn [String.append].
    destruct (Px (String "," (String " "
                (String.concat ", " (map (enc ord) l2) +++ "]" +++ rest)))
                eq_refl) as [n1 H1].
    cbn [String.append] in H1.
    exists (S (Nat.max n1 n2)). rewrite parse_elems_S. unfold elems_body.
    rewrite (parse_value_fuel n1 (Nat.max n1 n2) _ _ (Nat.le_max_l _ _) H1).
    cbn [skip_ws is_ws Ascii.eqb Bool.eqb orb].
    change (skip_ws (String " " ?s)) with (skip_ws s).
    rewrite (concat_enc_head l2 _ NE). cbn [String.append] in H2.
    rewrite (parse_elems_fuel n2 (Nat.max n1 n2) _ _ _ (Nat.le_max_r _ _) H2).
    rewrite <- app_assoc. reflexivity.
Qed.

Lemma render_text k x tail :
  render ord (KStr k, x) +++ tail =
  String dq (esc_body k +++
             String dq (String ":" (String " " (enc ord x +++ tail)))).
Proof.
  unfold render, enc_key, enc_str. cbn [fst snd].
  rewrite !append_assoc. cbn [String.append]. rewrite !append_assoc.
  reflexivity.
Qed.

Lemma concat_render_head (L : list (pykey * pyval)) tail :
  L <> [] ->
  Forall string_key L ->
  skip_ws (String.concat ", " (map (render ord) L) +++ tail) =
  String.concat ", " (map (render ord) L) +++ tail.
Proof.
  destruct L as [|[k x] [|kv L]]; [contradiction| |]; intros _ F;
    inversion F as [|? ? (s & E & _) _]; subst; cbn [fst] in E; subst k;
    cbn [map String.concat].
  - rewrite render_text. reflexivity.
  - rewrite append_assoc, render_text. reflexivity.
Qed.

Lemma fresh_key (acc : list (pykey * pyval)) k (B : list pykey) :
  NoDup (map fst acc ++ KStr k :: B) ->
  forall k', In k' (map fst acc) -> key_eqb k' (KStr k) = false.
Proof.
  intros N k' I. apply key_eqb_KStr_neq. intros ->.
  apply NoDup_remove_2 in N. apply N, in_or_app. left. exact I.
Qed.

(** The members of an object, from the first to the closing brace. *)
Lemma parse_members_concat (L : list (pykey * pyval)) :
  L <> [] ->
  Forall string_key L ->
  Forall (fun kv => reads_back ord (snd kv)) L ->
  forall acc rest,
  NoDup (map fst acc ++ map fst L) ->
  exists n,
    parse_members n
      (String.concat ", " (map (render ord) L) +++ "}" +++ rest) acc
    = Some (PDict (acc ++ map (fun kv => (fst kv, canon ord (snd kv))) L),
            rest).
Proof.
  induction L as [|[k0 x] L IH]; [contradiction|].
  intros _ K F acc rest N.
  inversion K as [|? ? (k & Ek & Ak) Kl]; subst.
  inversion F as [|? ? Px Fl]; subst.
  cbn [fst snd] in *. subst k0.
  cbn [map fst] in N.
  pose proof (dict_set_fresh acc (KStr k) (canon ord x)
                (fresh_key acc k _ N)) as DS.
  destruct L as [|kv L'].
  - cbn [map String.concat]. rewrite render_text.
    destruct (Px ("}" +++ rest) eq_refl) as [n1 H1].
    cbn [String.append] in H1 |- *.
    exists (S n1). rewrite parse_members_S. unfold members_body.
    change (dq =? dq)%char with true. cbv iota.
    rewrite (scan_string_esc k _ Ak).
    cbn [skip_ws is_ws Ascii.eqb Bool.eqb orb].
    change (skip_ws (String " " ?s)) with (skip_ws s).
    rewrite skip_ws_enc, H1.
    cbn [skip_ws is_ws Ascii.eqb Bool.eqb orb]. rewrite DS. reflexivity.
  - remember (kv :: L') as L2 eqn:E2.
    assert (NE : L2 <> []) by (subst; discriminate).
    assert (N2 : NoDup (map fst (acc ++ [(KStr k, canon ord x)])
                        ++ map fst L2)).
    { rewrite map_app, <- app_assoc. exact N. }
    destruct (IH NE Kl Fl (acc ++ [(KStr k, canon ord x)]) rest N2)
      as [n2 H2].
    cbn [map].
    assert (C : String.concat ", "
                  (render ord (KStr k, x) :: map (render ord) L2) =
                render ord (KStr k, x) +++ ", "
                  +++ String.concat ", " (map (render ord) L2))
      by (subst L2; reflexivity).
    rewrite C, append_assoc, render_text. rewrite !append_assoc.
    cbn [String.append] in H2 |- *.
    destruct (Px (String "," (String " "
                (String.concat ", " (map (render ord) L2)
                   +++ String "}" rest))) eq_refl) as [n1 H1].
    exists (S (Nat.max n1 n2)). rewrite parse_members_S. unfold members_body.
    change (dq =? dq)%char with true. cbv iota.
    rewrite (scan_string_esc k _ Ak).
    cbn [skip_ws is_ws Ascii.eqb Bool.eqb orb].
    change (skip_ws (String " " ?s)) with (skip_ws s).
    rewrite skip_ws_enc.
    rewrite (parse_value_fuel n1 (Nat.max n1 n2) _ _ (Nat.le_max_l _ _) H1).
    cbn [skip_ws is_ws Ascii.eqb Bool.eqb orb].
    change (skip_ws (String " " ?s)) with (skip_ws s).
    rewrite (concat_render_head L2 _ NE Kl), DS.
    rewrite (parse_members_fuel n2 (Nat.max n1 n2) _ _ _
               (Nat.le_max_r _ _) H2).
    rewrite <- app_assoc. reflexivity.
Qed.

Lemma wf_list l : wf (PList l) = true -> Forall (fun x => wf x = true) l.
Proof.
  unfold wf. cbn [in_fragment distinct_keys]. intros H.
  apply andb_prop in H as [A B]. rewrite forallb_forall in A, B.
  apply Forall_forall. intros x I. now rewrite (A x I), (B x I).
Qed.

Lemma wf_dict d :
  wf (PDict d) = true ->
  distinct (map fst d) = true
  /\ Forall (fun kv => string_key kv /\ wf (snd kv) = true) d.
Proof.
  unfold wf. cbn [in_fragment distinct_keys]. intros H.
  apply andb_prop in H as [A B]. apply andb_prop in B as [D B].
  split; [exact D|]. rewrite forallb_forall in A, B.
  apply Forall_forall. intros [k x] I.
  specialize (A _ I). specialize (B _ I). cbn [snd] in *.
  destruct k as [s| | |]; try discriminate.
  apply andb_prop in A as [As Ax]. split.
  - exists s. split; [reflexivity|exact As].
  - now rewrite Ax, B.
Qed.

Lemma distinct_NoDup ks : distinct ks = true -> NoDup ks.
Proof.
  induction ks as [|k ks IH]; [constructor|].
  cbn [distinct]. intros H. apply andb_prop in H as [F D].
  constructor; [|exact (IH D)].
  intros I. rewrite forallb_forall in F. specialize (F k I).
  rewrite key_eqb_refl in F. discriminate.
Qed.

Lemma concat_enc_first (l : list pyval) :
  l <> [] ->
  exists c r, String.concat ", " (map (enc ord) l) = String c r
              /\ is_ws c = false /\ (c =? "]")%char = false.
Proof.
  destruct l as [|x l]; [contradiction|]. intros _.
  destruct (enc_head x) as (c & r & E & W & B & _).
  destruct l as [|y l]; cbn [map String.concat]; rewrite E.
  - exists c, r. repeat split; assumption.
  - cbn [String.append]. eexists; eexists. repeat split; eassumption.
Qed.

Lemma concat_render_first (L : list (pykey * pyval)) :
  L <> [] ->
  Forall string_key L ->
  exists r, String.concat ", " (map (render ord) L) = String dq r.
Proof.
  destruct L as [|[k x] L]; [contradiction|]. intros _ F.
  inversion F as [|? ? (s & E & _) _]; subst. cbn [fst] in E. subst k.
  destruct L as [|kv L]; cbn [map String.concat].
  - rewrite <- (append_nil_r (render ord (KStr s, x))), render_text.
    eexists; reflexivity.
  - rewrite render_text. eexists; reflexivity.
Qed.

(** The items of a proper dictionary of the fragment. *)
Lemma dict_items_members (P : pyval -> Prop) d :
  Forall (fun kv => string_key kv /\ wf (snd kv) = true) d ->
  Forall (fun kv => P (snd kv)) d ->
  Forall string_key (dict_items ord d)
  /\ Forall (fun kv => wf (snd kv) = true -> P (snd kv)) (dict_items ord d)
  /\ Forall (fun kv => wf (snd kv) = true) (dict_items ord d).
Proof.
  intros W F. rewrite Forall_forall in W, F.
  assert (K : forall kv, In kv (dict_items ord d) -> In kv d).
  { intros [k v] I.
    assert (Ik : In k (map fst d)).
    { apply (Permutation_in _ (ord_perm (map fst d))).
      rewrite <- (dict_items_keys ord ord_perm d).
      apply (in_map fst) in I. exact I. }
    apply in_map_iff in Ik as ([k1 v1] & E1 & I1). cbn [fst] in E1. subst k1.
    destruct (W _ I1) as ((s & E & _) & _). cbn [fst] in E. subst k.
    apply (dict_items_In ord). exact I. }
  repeat split; apply Forall_forall; intros kv I.
  - apply (W kv (K kv I)).
  - intros _. apply (F kv (K kv I)).
  - apply (W kv (K kv I)).
Qed.

(** The decoder reads back what the encoder writes, every dictionary in
    its iteration order. *)
Lemma enc_reads_back v : wf v = true -> reads_back ord v.
Proof.
  induction v as [| b | z | s | l IH | d IH] using pyval_induction;
    intros W rest D.
  - exists 1%nat. reflexivity.
  - exists 1%nat. destruct b; reflexivity.
  - exists 1%nat. cbn [enc canon]. apply parse_value_int, D.
  - exists 1%nat. cbn [enc canon]. unfold enc_str.
    unfold wf in W. cbn [in_fragment distinct_keys] in W.
    rewrite andb_true_r in W.
    cbn [String.append]. rewrite append_assoc. cbn [String.append].
    rewrite parse_value_S. unfold value_body.
    change (dq =? dq)%char with true. cbv iota.
    rewrite (scan_string_esc s _ W). reflexivity.
  - cbn [enc canon].
    destruct l as [|x l'] eqn:El.
    + exists 1%nat. reflexivity.
    + rewrite <- El in *. assert (NE : l <> []) by (subst; discriminate).
      assert (F : Forall (reads_back ord) l).
      { pose proof (wf_list l W) as Wl. rewrite Forall_forall in IH, Wl.
        apply Forall_forall. intros y I. exact (IH y I (Wl y I)). }
      destruct (parse_elems_concat l NE F [] rest) as [n H].
      exists (S n). cbn [String.append]. rewrite append_assoc.
      rewrite parse_value_S. unfold value_body.
      change ("[" =? dq)%char with false.
      change ("[" =? "{")%char with false.
      change ("[" =? "[")%char with true. cbv iota.
      rewrite (concat_enc_head l _ NE).
      destruct (concat_enc_first l NE) as (c & r & E & _ & B).
      rewrite E in H |- *. cbn [String.append] in H |- *.
      rewrite B. exact H.
  - cbn [enc canon]. rewrite members_items, dict_items_map.
    destruct (wf_dict d W) as (Dk & Wd).
    destruct (dict_items_members (reads_back ord) d Wd) as (K & F & Wi).
    { rewrite Forall_forall in IH |- *. intros kv I.
      destruct (Forall_forall
                  (fun kv => string_key kv /\ wf (snd kv) = true) d) as [G _].
      specialize (G Wd kv I). apply (IH kv I), G. }
    assert (F' : Forall (fun kv => reads_back ord (snd kv))
                        (dict_items ord d)).
    { rewrite Forall_forall in F, Wi |- *. intros kv I.
      exact (F kv I (Wi kv I)). }
    fold (render ord).
    change (map (fun kv => enc_key (fst kv) +++ ": " +++ enc ord (snd kv))
                (dict_items ord d))
      with (map (render ord) (dict_items ord d)).
    destruct (dict_items ord d) as [|kv L'] eqn:EL.
    + exists 1%nat. reflexivity.
    + rewrite <- EL in *.
      assert (NE : dict_items ord d <> []) by (rewrite EL; discriminate).
      assert (N : NoDup (map fst (@nil (pykey * pyval))
                         ++ map fst (dict_items ord d))).
      { cbn [map app]. rewrite (dict_items_keys ord ord_perm).
        apply (Permutation_NoDup (Permutation_sym (ord_perm _))).
        apply distinct_NoDup, Dk. }
      destruct (parse_members_concat _ NE K F' [] rest N) as [n H].
      exists (S n). cbn [String.append]. rewrite append_assoc.
      rewrite parse_value_S. unfold value_body.
      change ("{" =? dq)%char with false.
      change ("{" =? "{")%char with true. cbv iota.
      rewrite (concat_render_head _ _ NE K).
      destruct (concat_render_first _ NE K) as (r & E).
      rewrite E in H |- *. cbn [String.append] in H |- *.
      change (dq =? "}")%char with false. cbv iota. exact H.
Qed.

(** Decoding the encoded text of a proper value of the fragment gives the
    value back, every dictionary in its iteration order. *)
Lemma loads_enc v : wf v = true -> loads (enc ord v) = Some (canon ord v).
Proof.
  intros W. destruct (enc_reads_back v W EmptyString eq_refl) as [n H].
  rewrite append_nil_r in H.
  apply (loads_any_fuel n _ _ EmptyString); [|reflexivity].
  rewrite <- (append_nil_r (enc ord v)), skip_ws_enc, append_nil_r.
  exact H.
Qed.

(** What is read back is the same JSON value. *)
Lemma canon_jeq v : wf v = true -> jeq (canon ord v) v.
Proof.
  induction v as [| b | z | s | l IH | d IH] using pyval_induction;
    intros W; try apply jeq_same.
  - cbn [canon]. apply jeq_list.
    pose proof (wf_list l W) as Wl. clear W.
    induction l as [|x l IHl]; [constructor|].
    inversion IH; inversion Wl; subst. cbn [map]. constructor; auto.
  - cbn [canon]. rewrite dict_items_map.
    destruct (wf_dict d W) as (Dk & Wd).
    apply (jeq_dict _ _ (map (fun kv => (fst kv, canon ord (snd kv))) d)).
    + apply Permutation_map, (dict_items_perm ord ord_perm d Dk).
    + clear W Dk. induction d as [|[k x] d IHd]; [constructor|].
      inversion IH; inversion Wd; subst. cbn [map fst snd] in *.
      constructor; [split; [reflexivity|tauto]|auto].
Qed.

(** *** The encoder's text is ASCII *)

Lemma uint_ascii (d : Decimal.uint) :
  ascii_str (NilEmpty.string_of_uint d) = true.
Proof. induction d; cbn [NilEmpty.string_of_uint ascii_str]; auto. Qed.

Lemma str_of_Z_ascii z : ascii_str (Script.str_of_Z z) = true.
Proof.
  unfold Script.str_of_Z.
  assert (U : forall d, ascii_str (NilZero.string_of_uint d) = true).
  { intros d. destruct d; try apply uint_ascii. reflexivity. }
  destruct z as [|p|p]; cbn [Z.to_int NilZero.string_of_int];
    [reflexivity|apply U|].
  cbn [ascii_str]. rewrite U. reflexivity.
Qed.

Lemma concat_ascii (l : list string) :
  Forall (fun e => ascii_str e = true) l ->
  ascii_str (String.concat ", " l) = true.
Proof.
  induction l as [|x l IH]; [reflexivity|]. intros F.
  inversion F as [|? ? Hx Fl]; subst.
  destruct l as [|y l]; [exact Hx|].
  change (String.concat ", " (x :: y :: l))
    with (x +++ ", " +++ String.concat ", " (y :: l)).
  rewrite !ascii_str_app, Hx, (IH Fl). reflexivity.
Qed.

Lemma enc_key_ascii k : ascii_str (enc_key k) = true.
Proof. destruct k as [s|z|[|]|]; apply enc_str_ascii. Qed.

Lemma enc_ascii v : ascii_str (enc ord v) = true.
Proof.
  induction v as [| b | z | s | l IH | d IH] using pyval_induction.
  - reflexivity.
  - destruct b; reflexivity.
  - apply str_of_Z_ascii.
  - apply enc_str_ascii.
  - cbn [enc]. cbn [String.append ascii_str]. rewrite ascii_str_app.
    rewrite concat_ascii; [reflexivity|].
    apply Forall_forall. intros e I. apply in_map_iff in I as (x & <- & I).
    rewrite Forall_forall in IH. exact (IH x I).
  - cbn [enc]. cbn [String.append ascii_str]. rewrite ascii_str_app.
    rewrite members_items, concat_ascii; [reflexivity|].
    apply Forall_forall. intros e I. apply in_map_iff in I as ([k x] & <- & I).
    cbn [fst snd]. rewrite !ascii_str_app, enc_key_ascii.
    unfold dict_items in I. apply in_flat_map in I as (k1 & _ & I).
    destruct (dict_get d k1) as [x1|] eqn:G; [|destruct I].
    destruct I as [[= <- <-]|[]].
    assert (In1 : exists k2, In (k2, x1) d).
    { clear - G. induction d as [|[k0 x0] d IHd]; [discriminate|].
      cbn [dict_get] in G. destruct (key_eqb k0 k1).
      - injection G as <-. exists k0. left. reflexivity.
      - destruct (IHd G) as [k2 I2]. exists k2. right. exact I2. }
    destruct In1 as [k2 I2]. rewrite Forall_forall in IH.
    pose proof (IH _ I2) as A. cbn [snd] in A. rewrite A. reflexivity.
Qed.

End Roundtrip.

(** ** What the decoder returns *)

Section DecoderOutput.
Import Json.

Lemma push_inv c o x r :
  push c o = Some (x, r) -> exists y, x = String c y /\ o = Some (y, r).
Proof.
  destruct o as [[y r']|]; simpl; [|discriminate].
  intros [= <- <-]. now exists y.
Qed.

Lemma unescape_ascii e ch : unescape e = Some ch -> is_ascii ch = true.
Proof.
  unfold unescape.
  repeat (break_match; try discriminate); intros [= <-]; reflexivity.
Qed.

Lemma ascii_of_small n : (n <? 128)%N = true -> is_ascii (ascii_of_N n) = true.
Proof.
  intros H. unfold is_ascii. rewrite N_ascii_embedding; [exact H|].
  apply N.ltb_lt in H. lia.
Qed.

(** The decoder only returns ASCII strings. *)
Lemma scan_string_ascii s : forall x r,
  scan_string s = Some (x, r) -> ascii_str x = true.
Proof.
  induction s as [s IH] using (well_founded_induction
                                 (Wf_nat.well_founded_ltof _ String.length)).
  unfold Wf_nat.ltof in IH.
  destruct s as [|c s]; intros x r; cbn [scan_string]; [discriminate|].
  destruct (c =? dq)%char; [intros [= <- _]; reflexivity|].
  destruct (c =? bs)%char.
  - destruct s as [|e s1]; [discriminate|].
    destruct (e =? "u")%char.
    + destruct s1 as [|h1 [|h2 [|h3 [|h4 r2]]]]; try discriminate.
      destruct (unhex4 h1 h2 h3 h4) as [n|]; [|discriminate].
      destruct (n <? 128)%N eqn:Hn; [|discriminate].
      intros H. apply push_inv in H as (y & -> & H).
      cbn [ascii_str]. rewrite (ascii_of_small n Hn).
      apply IH in H; [exact H|]. cbn [String.length]. lia.
    + destruct (unescape e) as [ch|] eqn:U; [|discriminate].
      intros H. apply push_inv in H as (y & -> & H).
      cbn [ascii_str]. rewrite (unescape_ascii _ _ U).
      apply IH in H; [exact H|]. cbn [String.length]. lia.
  - destruct (N_of_ascii c <? 32)%N; [discriminate|].
    destruct (is_ascii c) eqn:A; [|discriminate].
    intros H. apply push_inv in H as (y & -> & H).
    cbn [ascii_str]. rewrite A.
    apply IH in H; [exact H|]. cbn [String.length]. lia.
Qed.

Lemma scan_atom_scalar s v r : scan_atom s = Some (v, r) -> wf v = true.
Proof.
  unfold scan_atom, scan_number.
  repeat (break_match; try discriminate); intros [= <- _]; reflexivity.
Qed.

Lemma wf_snoc acc v :
  wf (PList acc) = true -> wf v = true -> wf (PList (acc ++ [v])) = true.
Proof.
  unfold wf. cbn [in_fragment distinct_keys]. intros A V.
  apply andb_prop in A as [A1 A2]. apply andb_prop in V as [V1 V2].
  rewrite !forallb_app, A1, A2. cbn [forallb]. now rewrite V1, V2.
Qed.

Lemma dict_set_keys d k v k2 :
  In k2 (map fst (dict_set d k v)) -> In k2 (map fst d) \/ k2 = k.
Proof.
  induction d as [|[k0 x] d IH]; cbn [dict_set map fst In].
  - intros [<-|[]]. right. reflexivity.
  - destruct (key_eqb k0 k); cbn [map fst In]; [tauto|].
    intros [<-|I]; [tauto|]. destruct (IH I); tauto.
Qed.

Lemma dict_set_wf acc k v :
  wf (PDict acc) = true -> ascii_str k = true -> wf v = true ->
  wf (PDict (dict_set acc (KStr k) v)) = true.
Proof.
  unfold wf. cbn [in_fragment distinct_keys]. intros A K V.
  apply andb_prop in V as [V1 V2].
  apply andb_prop in A as [A1 A2]. apply andb_prop in A2 as [A2 A3].
  induction acc as [|[k0 x] acc IH].
  - cbn. now rewrite K, V1, V2.
  - cbn [forallb map fst distinct snd] in A1, A2, A3.
    apply andb_prop in A1 as [F1 A1]. apply andb_prop in A2 as [D1 A2].
    apply andb_prop in A3 as [G1 A3].
    specialize (IH A1 A2 A3). apply andb_prop in IH as [I1 I2].
    apply andb_prop in I2 as [I2 I3].
    cbn [dict_set]. destruct (key_eqb k0 (KStr k)) eqn:E.
    + apply key_eqb_KStr in E. subst k0.
      cbn [forallb map fst distinct snd].
      rewrite K, V1, V2, A1, D1, A2, A3. reflexivity.
    + cbn [forallb map fst distinct snd].
      rewrite F1, I1, I2, G1, I3. rewrite !andb_true_r. cbn [andb].
      apply forallb_forall. intros k2 In2.
      apply dict_set_keys in In2 as [In2| ->].
      * rewrite forallb_forall in D1. exact (D1 k2 In2).
      * rewrite E. reflexivity.
Qed.

(** The decoder only returns proper values of the fragment. *)
Lemma parse_wf n :
  (forall s v r, parse_value n s = Some (v, r) -> wf v = true)
  /\ (forall s acc v r, parse_elems n s acc = Some (v, r) ->
        wf (PList acc) = true -> wf v = true)
  /\ (forall s acc v r, parse_members n s acc = Some (v, r) ->
        wf (PDict acc) = true -> wf v = true).
Proof.
  induction n as [|n (IHv & IHe & IHm)]; [repeat split; discriminate|].
  repeat apply conj.
  - intros s v r. rewrite parse_value_S. unfold value_body.
    destruct s as [|c r0]; [discriminate|].
    destruct (c =? dq)%char.
    { destruct (scan_string r0) as [[x r']|] eqn:E; [|discriminate].
      intros [= <- _]. unfold wf. cbn [in_fragment distinct_keys].
      rewrite (scan_string_ascii _ _ _ E). reflexivity. }
    destruct (c =? "{")%char.
    { destruct (skip_ws r0) as [|c' r']; [discriminate|].
      destruct (c' =? "}")%char; [intros [= <- _]; reflexivity|].
      intros H. exact (IHm _ _ _ _ H eq_refl). }
    destruct (c =? "[")%char.
    { destruct (skip_ws r0) as [|c' r']; [discriminate|].
      destruct (c' =? "]")%char; [intros [= <- _]; reflexivity|].
      intros H. exact (IHe _ _ _ _ H eq_refl). }
    apply scan_atom_scalar.
  - intros s acc v r. rewrite parse_elems_S. unfold elems_body.
    destruct (parse_value n s) as [[v1 r1]|] eqn:E1; [|discriminate].
    apply IHv in E1.
    destruct (skip_ws r1) as [|c r']; [discriminate|].
    destruct (c =? ",")%char.
    { intros H A. exact (IHe _ _ _ _ H (wf_snoc _ _ A E1)). }
    destruct (c =? "]")%char; [|discriminate].
    intros [= <- _] A. exact (wf_snoc _ _ A E1).
  - intros s acc v r. rewrite parse_members_S. unfold members_body.
    destruct s as [|c r0]; [discriminate|].
    destruct (c =? dq)%char; [|discriminate].
    destruct (scan_string r0) as [[k r1]|] eqn:E1; [|discriminate].
    apply scan_string_ascii in E1.
    destruct (skip_ws r1) as [|c1 r2]; [discriminate|].
    destruct (c1 =? ":")%char; [|discriminate].
    destruct (parse_value n (skip_ws r2)) as [[v1 r3]|] eqn:E3;
      [|discriminate].
    apply IHv in E3.
    destruct (skip_ws r3) as [|c3 r4]; [discriminate|].
    destruct (c3 =? ",")%char.
    { intros H A. exact (IHm _ _ _ _ H (dict_set_wf _ _ _ A E1 E3)). }
    destruct (c3 =? "}")%char; [|discriminate].
    intros [= <- _] A. exact (dict_set_wf _ _ _ A E1 E3).
Qed.

Lemma loads_wf text v : loads text = Some v -> wf v = true.
Proof.
  unfold loads.
  destruct (parse_value _ _) as [[v0 r]|] eqn:E; [|discriminate].
  destruct (skip_ws r); [|discriminate]. intros [= <-].
  exact (proj1 (parse_wf _) _ _ _ E).
Qed.

End DecoderOutput.

(* ------------------------------------------------------------------ *)
(** * What [put] sends is what it read *)

Section PutRoundTrip.
Import Json.
Variable ord : list pykey -> list pykey.
Hypothesis ord_perm : forall ks, Permutation (ord ks) ks.

Lemma fold_dict_set (L : list (pykey * pyval)) : forall acc,
  Forall string_key L ->
  NoDup (map fst acc ++ map fst L) ->
  fold_left (fun a kv => dict_set a (fst kv) (snd kv)) L acc = acc ++ L.
Proof.
  induction L as [|[k x] L IH]; intros acc K N.
  - cbn. now rewrite app_nil_r.
  - inversion K as [|? ? (s & E & _) Kl]; subst. cbn [fst] in E. subst k.
    cbn [fold_left fst snd map] in *.
    rewrite (dict_set_fresh acc (KStr s) x (fresh_key acc s _ N)).
    rewrite IH; [now rewrite <- app_assoc|exact Kl|].
    rewrite map_app, <- app_assoc. exact N.
Qed.

Lemma NoDup_distinct ks :
  (forall k, In k ks -> exists s, k = KStr s) ->
  NoDup ks -> distinct ks = true.
Proof.
  induction ks as [|k ks IH]; [reflexivity|]. intros S N.
  inversion N as [|? ? Nk Nr]; subst. cbn [distinct].
  rewrite IH; [|intros k' I; apply S; right; exact I|exact Nr].
  rewrite andb_true_r. apply forallb_forall. intros k2 I.
  destruct (S k2 (or_intror I)) as [s ->].
  destruct (key_eqb k (KStr s)) eqn:E; [|reflexivity].
  apply key_eqb_KStr in E. subst k. contradiction.
Qed.

(** The items of a proper dictionary form a proper dictionary. *)
Lemma wf_dict_items d :
  wf (PDict d) = true -> wf (PDict (dict_items ord d)) = true.
Proof.
  intros W. destruct (wf_dict d W) as (Dk & Wd).
  destruct (dict_items_members ord ord_perm (fun _ => True) d Wd) as (K & _ & Wi).
  { apply Forall_forall. intros; exact I. }
  unfold wf. cbn [in_fragment distinct_keys].
  assert (D : distinct (map fst (dict_items ord d)) = true).
  { apply NoDup_distinct.
    - intros k I. apply in_map_iff in I as (kv & <- & I).
      rewrite Forall_forall in K. destruct (K kv I) as (s & E & _).
      exists s. exact E.
    - rewrite (dict_items_keys ord ord_perm).
      apply (Permutation_NoDup (Permutation_sym (ord_perm _))).
      apply distinct_NoDup, Dk. }
  rewrite D. rewrite Forall_forall in K, Wi.
  assert (A : forallb (fun kv => match kv with
                                 | (KStr k, x) => ascii_str k && in_fragment x
                                 | _ => false
                                 end) (dict_items ord d) = true
              /\ forallb (fun kv => distinct_keys (snd kv))
                         (dict_items ord d) = true).
  { split; apply forallb_forall; intros [k x] I;
      destruct (K _ I) as (s & E & As); cbn [fst] in E; subst k;
      pose proof (Wi _ I) as Wx; cbn [snd] in Wx; unfold wf in Wx;
      apply andb_prop in Wx as [W1 W2].
    - now rewrite As, W1.
    - exact W2. }
  destruct A as [A1 A2]. now rewrite A1, A2.
Qed.

(** Reading back a reordered dictionary gives the same JSON value. *)
Lemma canon_items_jeq (L d : list (pykey * pyval)) :
  wf (PDict d) = true ->
  Permutation L d ->
  jeq (PDict (map (fun kv => (fst kv, canon ord (snd kv))) L)) (PDict d).
Proof.
  intros W P. destruct (wf_dict d W) as (_ & Wd).
  apply (jeq_dict _ _ (map (fun kv => (fst kv, canon ord (snd kv))) d)).
  - apply Permutation_map, P.
  - clear W P. induction d as [|[k x] d IHd]; [constructor|].
    inversion Wd as [|? ? [_ Wx] Wr]; subst. cbn [map fst snd] in *.
    constructor; [split; [reflexivity|]|exact (IHd Wr)].
    apply (canon_jeq ord ord_perm), Wx.
Qed.

Lemma changes_loaded fs chg xs p :
  files p = fs ->
  changes_given fs chg xs ->
  load_changes (R := runtime ord) chg p = (Ok xs, p)
  /\ wf (PList xs) = true.
Proof.
  intros F G. rewrite load_changes_cases. unfold changes_given in G.
  destruct chg as [path|]; [|subst; split; reflexivity].
  destruct (truthy (Some path)); [|subst; split; reflexivity].
  destruct G as (text & Ft & L). rewrite F, Ft.
  unfold changes_of, load. cbn [json_loads runtime]. rewrite L.
  split; [reflexivity|exact (loads_wf _ _ L)].
Qed.

Lemma properties_loaded env fs pr d :
  properties_given env fs pr d ->
  exists ps,
    load_properties (R := runtime ord) env pr (boot fs) = (Ok ps, boot fs)
    /\ wf (PDict ps) = true
    /\ wf (PDict d) = true
    /\ Permutation ps d.
Proof.
  intros G. rewrite load_properties_cases. unfold properties_given in G.
  destruct pr as [path|];
    [|subst; exists []; repeat split; constructor].
  destruct (truthy (Some path));
    [|subst; exists []; repeat split; constructor].
  destruct G as (text & Ft & L). rewrite Ft.
  unfold properties_of, load. cbn [json_loads runtime]. rewrite L.
  pose proof (loads_wf _ _ L) as W.
  pose proof (wf_dict_items d W) as Wi.
  destruct (wf_dict _ Wi) as (Dk & Wd).
  exists (dict_items ord d).
  cbn [dict_update dict_order runtime].
  rewrite (fold_dict_set (dict_items ord d) []).
  - repeat split; try assumption.
    apply (dict_items_perm ord ord_perm).
    destruct (wf_dict d W) as (Dd & _). exact Dd.
  - apply Forall_forall. intros kv I. rewrite Forall_forall in Wd.
    apply (Wd kv I).
  - cbn [map app]. apply distinct_NoDup, Dk.
Qed.

Lemma wf_parameters N xs ps :
  ascii_str N = true ->
  wf (PList xs) = true ->
  wf (PDict ps) = true ->
  wf (parameters N xs ps) = true.
Proof.
  unfold wf, parameters. cbn [in_fragment distinct_keys forallb map fst snd].
  intros A X P. apply andb_prop in X as [X1 X2].
  apply andb_prop in P as [P1 P2].
  cbn [in_fragment distinct_keys] in X1, X2, P1, P2.
  rewrite A, X1, X2, P1, P2. reflexivity.
Qed.

Lemma wf_put_body B s :
  ascii_str B = true -> ascii_str s = true -> wf (put_body B s) = true.
Proof.
  unfold wf, put_body. cbn [in_fragment distinct_keys forallb map fst snd].
  intros A S. rewrite A, S. reflexivity.
Qed.

Lemma dumps_wf v : wf v = true -> dumps ord v = Some (enc ord v).
Proof.
  unfold wf, dumps. intros W. apply andb_prop in W as [W _].
  rewrite W. reflexivity.
Qed.

(** X13: when the changes option is absent or names a file that holds a
    JSON list, and the properties option is absent or names a source that
    holds a JSON object, [put] with an ASCII bucket and builder sends one
    [PUT] to the base API URL whose body decodes to the two fields [bucket]
    and [parameters_json], the latter a string that decodes to the three
    fields [builder_name], [changes] and [properties], where [changes] is
    the list read and [properties] the object read, as JSON values (up to
    the order of the members of objects). *)
Theorem put_sends_what_it_read
        env (verb : bool) (B N : string) chg pr rj fs xs d :
  ascii_str B = true ->
  ascii_str N = true ->
  changes_given fs chg xs ->
  properties_given env fs pr d ->
  exists body s outer inner cs ps,
    sent (snd (run (R := runtime ord) env
                   (mkArgs verb (Put B chg N pr) rj) fs)) =
    [ mkRequest BUILDBUCKET_API_URL "PUT" (Some body) content_type ]
    /\ loads body = Some (PDict outer)
    /\ Permutation outer
         [(KStr "bucket", PStr B); (KStr "parameters_json", PStr s)]
    /\ loads s = Some (PDict inner)
    /\ Permutation inner
         [(KStr "builder_name", PStr N); (KStr "changes", cs);
          (KStr "properties", ps)]
    /\ jeq cs (PList xs)
    /\ jeq ps (PDict d).
Proof.
  intros HB HN Gc Gp.
  destruct (changes_loaded fs chg xs (boot fs) eq_refl Gc) as (Lc & Wx).
  destruct (properties_loaded env fs pr d Gp) as (ps0 & Lp & Wp & Wd & Pp).
  pose proof (wf_parameters N xs ps0 HN Wx Wp) as WV.
  pose proof (wf_put_body B (enc ord (parameters N xs ps0)) HB
                (enc_ascii ord _)) as WO.
  exists (enc ord (put_body B (enc ord (parameters N xs ps0)))),
         (enc ord (parameters N xs ps0)),
         (dict_items ord [(KStr "bucket", PStr B);
                          (KStr "parameters_json",
                           PStr (enc ord (parameters N xs ps0)))]),
         (dict_items ord [(KStr "builder_name", PStr N);
                          (KStr "changes", canon ord (PList xs));
                          (KStr "properties", canon ord (PDict ps0))]),
         (canon ord (PList xs)), (canon ord (PDict ps0)).
  repeat apply conj.
  - rewrite run_sent. cbn [command].
    rewrite build_put_cases, Lc. unfold put_after_changes. rewrite Lp.
    unfold encode_put. cbn [json_dumps runtime].
    rewrite (dumps_wf _ WV), (dumps_wf _ WO). reflexivity.
  - rewrite (loads_enc ord ord_perm _ WO). reflexivity.
  - apply (dict_items_perm ord ord_perm). reflexivity.
  - rewrite (loads_enc ord ord_perm _ WV). reflexivity.
  - apply (dict_items_perm ord ord_perm). reflexivity.
  - apply (canon_jeq ord ord_perm), Wx.
  - cbn [canon]. rewrite dict_items_map.
    apply canon_items_jeq; [exact Wd|].
    apply (Permutation_trans
             (dict_items_perm ord ord_perm ps0
                (proj1 (wf_dict ps0 Wp)))), Pp.
Qed.

End PutRoundTrip.

Section PutRoundTripWitness.
Import Json Fixtures.

(** X13 at the changes [[{"a":1}]] in a file and the properties
    [{"foo":"bar","baz":42}] on standard input. *)
Lemma put_sends_what_it_read_witness :
  let env := mkEnv (qq "{'foo':'bar','baz':42}") anywhere (answer 200 "{}") in
  let fs := file "changes.json" (qq "[{'a':1}]") in
  exists body s outer inner cs ps,
    sent (snd (run (R := runtime insertion_order) env
                   (mkArgs false
                           (Put "B" (Some "changes.json") "N" (Some "-"))
                           None) fs)) =
    [ mkRequest BUILDBUCKET_API_URL "PUT" (Some body) content_type ]
    /\ loads body = Some (PDict outer)
    /\ Permutation outer
         [(KStr "bucket", PStr "B"); (KStr "parameters_json", PStr s)]
    /\ loads s = Some (PDict inner)
    /\ Permutation inner
         [(KStr "builder_name", PStr "N"); (KStr "changes", cs);
          (KStr "properties", ps)]
    /\ jeq cs (PList [PDict [(KStr "a", PInt 1)]])
    /\ jeq ps (PDict [(KStr "foo", PStr "bar"); (KStr "baz", PInt 42)]).
Proof.
  apply (put_sends_what_it_read insertion_order insertion_order_perm
           (mkEnv (qq "{'foo':'bar','baz':42}") anywhere (answer 200 "{}"))
           false "B" "N" (Some "changes.json") (Some "-") None
           (file "changes.json" (qq "[{'a':1}]")));
    try reflexivity.
  - exists (qq "[{'a':1}]"). split; reflexivity.
  - exists (qq "{'foo':'bar','baz':42}"). split; reflexivity.
Defined.

End PutRoundTripWitness.

(* ------------------------------------------------------------------ *)
(** * The response file that cannot be written; the shape of requests *)

Section FurtherStill.
Context {R : Runtime}.

(** X14: when [--response-json] names a path that cannot be opened for
    writing and the body of the answer is valid JSON, the run ends with an
    uncaught [IOError] after the exchange: the request has been issued and
    the trace printed, but no file is written and no [Build:] line is
    printed, whatever the body holds. *)
Theorem unwritable_response_file env a fs r path :
  response_json a = Some path ->
  path <> EmptyString ->
  can_write env path = false ->
  sent (snd (run env a fs)) = [r] ->
  json_loads (snd (http env r)) <> None ->
  run env a fs =
  (Uncaught IOError,
   mkProc fs (if verbose a then trace_lines env r else []) [] [r]).
Proof.
  intros Hp NE W H J. rewrite (run_after_exchange _ _ _ _ H).
  rewrite decorate_cases, Hp, (truthy_nonempty _ NE), W.
  destruct (json_loads _) as [v|]; [reflexivity|congruence].
Qed.

(** X15: a request carries a body exactly when the command is [put]; a
    [put] request is a [PUT] to the base API URL, whatever its inputs. *)
Theorem body_only_for_put env a fs r :
  sent (snd (run env a fs)) = [r] ->
  match command a with
  | Put _ _ _ _ =>
      req_method r = "PUT" /\ req_url r = BUILDBUCKET_API_URL
      /\ req_body r <> None
  | Get _ => req_method r = "GET" /\ req_body r = None
  | Retry _ => req_method r = "PUT" /\ req_body r = None
  end.
Proof.
  rewrite run_sent. destruct (command a) as [id|b chg n pr|id].
  - cbn. intros [= <-]. split; reflexivity.
  - rewrite build_put_cases.
    destruct (load_changes chg (boot fs)) as [[xs|e] p1]; [|discriminate].
    unfold put_after_changes.
    destruct (load_properties env pr p1) as [[ps|e] p2]; [|discriminate].
    unfold encode_put.
    destruct (json_dumps _) as [s|]; [|discriminate].
    destruct (json_dumps _) as [body|]; [|discriminate].
    intros [= <-]. repeat split. discriminate.
  - cbn. intros [= <-]. split; reflexivity.
Qed.

End FurtherStill.

Section FurtherStillWitnesses.
Import Json Fixtures.

(** X14 at a body that carries a build URL. *)
Lemma unwritable_response_file_witness :
  let env := mkEnv "" nowhere
                   (answer 200 (qq "{'build':{'url':'http://x/1'}}")) in
  let a := mkArgs false (Get "1") (Some "out.json") in
  run (R := py) env a no_files =
  (Uncaught IOError, mkProc no_files [] [] [get1]).
Proof.
  apply (unwritable_response_file (R := py)
           (mkEnv "" nowhere
                  (answer 200 (qq "{'build':{'url':'http://x/1'}}")))
           (mkArgs false (Get "1") (Some "out.json")) no_files get1
           "out.json");
    try reflexivity; discriminate.
Defined.

(** X15 at a [put] without inputs. *)
Lemma body_only_for_put_witness :
  let env := mkEnv "" anywhere (answer 200 "{}") in
  let a := mkArgs false (Put "B" None "N" None) None in
  let body :=
    qq "{'bucket': 'B', 'parameters_json': '{\'builder_name\': \'N\', \'changes\': [], \'properties\': {}}'}" in
  let r := request "PUT" BUILDBUCKET_API_URL (Some body) in
  sent (snd (run (R := py) env a no_files)) = [r]
  /\ req_method r = "PUT"
  /\ req_url r = BUILDBUCKET_API_URL
  /\ req_body r <> None.
Proof.
  split; [reflexivity|].
  apply (body_only_for_put (R := py)
           (mkEnv "" anywhere (answer 200 "{}"))
           (mkArgs false (Put "B" None "N" None) None) no_files).
  reflexivity.
Defined.

End FurtherStillWitnesses.
